(** * Production-management service: repository layer, JSON handlers and
      spreadsheet importer

    A shallow embedding of the Go sources:
    - [main.go]: repository functions over the PostgreSQL pool and the gin
      handlers of the JSON API;
    - the earlier copy of the same server, whose delete handler and route
      table differ (definitions suffixed [_v0]);
    - the importer ([parseDecimal], [getMaterialID], [getTypeID] and the row
      loop of its [main]);
    - the schema ([materials], [products_types], [workshops], [products],
      [products_workshop]) with its keys and delete rules.

    The storage engine, the driver and the Go standard library are the
    environment.  Stored tables are lists of rows, a statement is a state
    transformer over [World], and every round trip to the engine draws one
    entry of a fault schedule, so that each theorem covers every pattern of
    failures.  The schedule stands for whatever the rows do not determine (a
    lost connection, a value too long for its column); a failed round trip
    leaves the stored rows as they were.  Library functions whose result the program only
    passes along ([strconv.ParseFloat], [fmt.Sscanf] with the verb d, SQL
    [LOWER], the casts between [float64] and [DECIMAL(10,2)]) are the fields of
    the class [Platform]. *)

From Stdlib Require Import ZArith QArith Qabs Ascii String Lia.
From stdpp Require Import base tactics option list strings sorting.

Local Open Scope string_scope.
Local Open Scope list_scope.
Local Open Scope Z_scope.

(** ** Errors and results *)

(** Failures reported by the engine or the driver for one statement. *)
Inductive pg_failure :=
  | ConnFailure          (* transport or execution failure drawn from the schedule *)
  | PrimaryKeyViolation
  | ForeignKeyViolation
  | UniqueViolation
  | NumericOutOfRange    (* the value does not fit DECIMAL(10,2) *)
  | ScanNull             (* cannot scan NULL into a non-pointer Go value *)
  | TxClosed             (* pgx.ErrTxClosed *)
  | InFailedTx           (* statement sent in an aborted transaction *)
  | TxCommitRollback.    (* pgx.ErrTxCommitRollback: commit of an aborted transaction *)

(** Go [error] values of the two programs; one constructor per
    [fmt.Errorf] site, with the wrapped cause where the format has [%w]/[%v]. *)
Inductive error :=
  | ErrNoRows                                   (* pgx.ErrNoRows *)
  | ErrPg (f : pg_failure)
  | ErrSyntax                                   (* strconv.ErrSyntax *)
  | ErrRange                                    (* strconv.ErrRange *)
  | ErrBeginTx (cause : error)                  (* transaction start failed *)
  | ErrCreateProduct (cause : error)            (* product insert failed *)
  | ErrAddWorkshop (workshop : Z) (cause : error) (* link insert failed, with the workshop id *)
  | ErrCommitTx (cause : error)                 (* commit failed *)
  | ErrNothingDeleted                           (* no row was deleted *)
  | ErrDelete                                   (* delete statement failed *)
  | ErrMaterialNotFound (name : string)
  | ErrMaterialLookup (cause : error)
  | ErrTypeNotFound (name : string)
  | ErrTypeLookup (cause : error)
  | ErrInvalidNumber (cause : error).

(** A Go pair [(value, error)] in which the value is the zero value
    whenever the error is not nil. *)
Inductive result (A : Type) :=
  | Ok (a : A)
  | Err (e : error).
Arguments Ok {A} a.
Arguments Err {A} e.

Definition is_ok {A} (r : result A) : bool :=
  match r with Ok _ => true | Err _ => false end.

(** ** Go strings (byte sequences) and the [strings] functions used *)

Definition bytes (l : list nat) : string :=
  string_of_list_ascii (map ascii_of_nat l).

(** UTF-8 encodings of the runes for which [unicode.IsSpace] holds:
    tab, LF, VT, FF, CR, space, U+0085, U+00A0, U+1680, U+2000..U+200A,
    U+2028, U+2029, U+202F, U+205F, U+3000. *)
Definition space_runes : list string :=
  map bytes
    [ [9]; [10]; [11]; [12]; [13]; [32];
      [194; 133]; [194; 160]; [225; 154; 128];
      [226; 128; 128]; [226; 128; 129]; [226; 128; 130]; [226; 128; 131];
      [226; 128; 132]; [226; 128; 133]; [226; 128; 134]; [226; 128; 135];
      [226; 128; 136]; [226; 128; 137]; [226; 128; 138];
      [226; 128; 168]; [226; 128; 169]; [226; 128; 175];
      [226; 129; 159]; [227; 128; 128] ]%nat.

Fixpoint strip_prefix (p s : string) : option string :=
  match p, s with
  | EmptyString, _ => Some s
  | String a p', String b s' =>
      if Ascii.eqb a b then strip_prefix p' s' else None
  | String _ _, EmptyString => None
  end.

(** The rest of [s] after one leading rune of [runes], if it starts with one. *)
Fixpoint strip_one (runes : list string) (s : string) : option string :=
  match runes with
  | [] => None
  | r :: runes' =>
      match strip_prefix r s with
      | Some rest => Some rest
      | None => strip_one runes' s
      end
  end.

(** Drops leading runes of [runes]; every step removes at least one byte,
    so [String.length s] steps are enough. *)
Fixpoint trim_left_fuel (fuel : nat) (runes : list string) (s : string) : string :=
  match fuel with
  | O => s
  | S fuel' =>
      match strip_one runes s with
      | Some rest => trim_left_fuel fuel' runes rest
      | None => s
      end
  end.

Definition trim_left (runes : list string) (s : string) : string :=
  trim_left_fuel (String.length s) runes s.

Definition rev_string (s : string) : string :=
  string_of_list_ascii (rev (list_ascii_of_string s)).

(** [strings.TrimSpace]: leading, then trailing white space is removed.
    The trailing pass works on the reversed string with reversed encodings. *)
Definition TrimSpace (s : string) : string :=
  rev_string (trim_left (map rev_string space_runes) (rev_string (trim_left space_runes s))).

(** [strings.ReplaceAll s old new] for a one-byte [old], the only form the
    sources use. *)
Fixpoint ReplaceAll (s : string) (old : ascii) (new : string) : string :=
  match s with
  | EmptyString => EmptyString
  | String c s' =>
      if Ascii.eqb c old then (new ++ ReplaceAll s' old new)%string
      else String c (ReplaceAll s' old new)
  end.

(** ** SQL [DECIMAL(10,2)] values *)

(** A numeric of scale two is its number of hundredths; the type also has
    the value NaN, which absorbs in sums. *)
Inductive numeric :=
  | Num (hundredths : Z)
  | NumNaN.

Definition numeric_add (a b : numeric) : numeric :=
  match a, b with
  | Num x, Num y => Num (x + y)
  | _, _ => NumNaN
  end.

(** ** The platform *)

Class Platform := {
  (** Go [float64]; the programs never compute with it. *)
  float64 : Type;
  float64_zero : float64;
  (** [strconv.ParseFloat(s, 64)] *)
  ParseFloat : string → result float64;
  (** [fmt.Sscanf(s, "%d", &n)]: [None] when it returns an error *)
  Sscanf_d : string → option Z;
  (** SQL [LOWER] under the database collation *)
  LOWER : string → string;
  (** a [float64] parameter stored in a [DECIMAL(10,2)] column; [None] when the
      engine rejects it *)
  numeric_of_float64 : float64 → option numeric;
  (** a numeric result column scanned into a [float64] *)
  float64_of_numeric : numeric → float64
}.

(** *** A concrete platform for closed examples

    Floats are the exact rationals they denote.  [ParseFloat_decimal] is the
    plain-decimal fragment of [strconv.ParseFloat]: an optional sign, digits
    with at most one point and at least one digit; literals Go also accepts
    but that lie outside this fragment (exponents, hexadecimal floats,
    infinities, NaN) are not covered and are reported as syntax errors. *)

Definition is_digit (c : ascii) : bool :=
  let n := nat_of_ascii c in (48 <=? n)%nat && (n <=? 57)%nat.

Definition digit_val (c : ascii) : Z := Z.of_nat (nat_of_ascii c) - 48.

(** Reads a run of digits: accumulated value, number of digits, rest. *)
Fixpoint read_digits (acc : Z) (n : nat) (s : string) : Z * nat * string :=
  match s with
  | String c s' =>
      if is_digit c then read_digits (10 * acc + digit_val c) (S n) s'
      else (acc, n, s)
  | EmptyString => (acc, n, s)
  end.

Definition strip_sign (s : string) : bool * string :=
  match s with
  | String "+" s' => (false, s')
  | String "-" s' => (true, s')
  | _ => (false, s)
  end.

(** Largest magnitude that still rounds to a finite double: values at or
    above [2^1024 - 2^970] are range errors. *)
Definition float64_overflow (q : Q) : bool :=
  Qle_bool (inject_Z (2 ^ 1024 - 2 ^ 970)) (Qabs q).

Definition ParseFloat_decimal (s : string) : result Q :=
  let '(neg, s1) := strip_sign s in
  let '(ip, ni, s2) := read_digits 0 0 s1 in
  let '(fp, nf, s3) :=
    match s2 with
    | String "." s2' => read_digits ip 0 s2'
    | _ => (ip, 0%nat, s2)
    end in
  match s3 with
  | EmptyString =>
      if (ni + nf =? 0)%nat then Err ErrSyntax
      else
        let q := Qred (Qmake (if neg then - fp else fp) (Z.to_pos (10 ^ Z.of_nat nf))) in
        if float64_overflow q then Err ErrRange else Ok q
  | _ => Err ErrSyntax
  end.

(** The fragment of [fmt.Sscanf] with ["%d"] without leading blanks: an
    optional sign and a run of digits and underscores, parsed in base ten
    into 64 bits; input after the run is left unread. *)
Fixpoint read_int_token (s : string) : string :=
  match s with
  | String c s' =>
      if is_digit c || Ascii.eqb c "_" then String c (read_int_token s') else EmptyString
  | EmptyString => EmptyString
  end.

Definition Sscanf_d_decimal (s : string) : option Z :=
  let '(neg, s1) := strip_sign s in
  let tok := read_int_token s1 in
  let '(v, n, rest) := read_digits 0 0 tok in
  match rest with
  | EmptyString =>
      if (n =? 0)%nat then None
      else
        let i := if neg then - v else v in
        if Z.leb (- 2 ^ 63) i && Z.leb i (2 ^ 63 - 1) then Some i else None
  | _ => None
  end.

Definition ascii_lower (c : ascii) : ascii :=
  let n := nat_of_ascii c in
  if (65 <=? n)%nat && (n <=? 90)%nat then ascii_of_nat (n + 32) else c.

(** [LOWER] on the ASCII letters only. *)
Fixpoint LOWER_ascii (s : string) : string :=
  match s with
  | EmptyString => EmptyString
  | String c s' => String (ascii_lower c) (LOWER_ascii s')
  end.

(** Rounds half away from zero to hundredths; ten digits of precision. *)
Definition numeric_of_Q (q : Q) : option numeric :=
  let n := Qnum q * 200 + (if Qnum q <? 0 then -1 else 1) * Z.pos (Qden q) in
  let h := Z.quot n (2 * Z.pos (Qden q)) in
  if Z.abs h <? 10 ^ 10 then Some (Num h) else None.

(** NaN has no rational image; the examples never scan one. *)
Definition Q_of_numeric (n : numeric) : Q :=
  match n with
  | Num h => Qred (Qmake h 100)
  | NumNaN => 0%Q
  end.

Definition decimal_platform : Platform := {|
  float64 := Q;
  float64_zero := 0%Q;
  ParseFloat := ParseFloat_decimal;
  Sscanf_d := Sscanf_d_decimal;
  LOWER := LOWER_ascii;
  numeric_of_float64 := numeric_of_Q;
  float64_of_numeric := Q_of_numeric
|}.


(** ** The schema *)

Record materials_row := {
  m_id : Z;                              (* SERIAL PRIMARY KEY *)
  material_name : string;                (* NOT NULL *)
  wasting_percentage : option numeric
}.

Record products_types_row := {
  pt_id : Z;                             (* SERIAL PRIMARY KEY *)
  type_name : string;                    (* NOT NULL *)
  type_ratio : option numeric
}.

Record workshops_row := {
  w_id : Z;                              (* SERIAL PRIMARY KEY *)
  w_name : string;                       (* NOT NULL *)
  w_type : option string
}.

Record products_row := {
  p_id : Z;                              (* SERIAL PRIMARY KEY *)
  product_name : string;                 (* NOT NULL *)
  material_id : Z;                       (* NOT NULL, materials(id), RESTRICT *)
  type_id : Z;                           (* NOT NULL, products_types(id), RESTRICT *)
  min_price : option numeric;
  article : option string
}.

Record products_workshop_row := {
  pw_id : Z;                             (* SERIAL PRIMARY KEY *)
  product_id : Z;                        (* NOT NULL, products(id), CASCADE *)
  workshop_id : Z;                       (* NOT NULL, workshops(id), CASCADE *)
  production_time : option numeric       (* UNIQUE (product_id, workshop_id) *)
}.

Record Tables := {
  materials : list materials_row;
  products_types : list products_types_row;
  workshops : list workshops_row;
  products : list products_row;
  products_workshop : list products_workshop_row
}.

Definition set_products (T : Tables) (ps : list products_row) : Tables :=
  {| materials := materials T; products_types := products_types T;
     workshops := workshops T; products := ps;
     products_workshop := products_workshop T |}.

Definition set_products_workshop (T : Tables) (pws : list products_workshop_row) : Tables :=
  {| materials := materials T; products_types := products_types T;
     workshops := workshops T; products := products T;
     products_workshop := pws |}.

(** *** Statements of the engine on a table state *)

(** [INSERT INTO products ... VALUES (...)] with the generated [id]. *)
Definition insert_products (T : Tables) (id : Z) (name : string)
    (mid tid : Z) (price : numeric) (art : string) : result Tables :=
  if bool_decide (id ∈ p_id <$> products T) then Err (ErrPg PrimaryKeyViolation)
  else if negb (bool_decide (mid ∈ m_id <$> materials T)) then Err (ErrPg ForeignKeyViolation)
  else if negb (bool_decide (tid ∈ pt_id <$> products_types T)) then Err (ErrPg ForeignKeyViolation)
  else Ok (set_products T
         (products T ++
          [ {| p_id := id; product_name := name; material_id := mid;
               type_id := tid; min_price := Some price; article := Some art |} ])).

(** [INSERT INTO products_workshop ... VALUES (...)] with the generated [id]. *)
Definition insert_products_workshop (T : Tables) (id pid wid : Z)
    (time : numeric) : result Tables :=
  if bool_decide (id ∈ pw_id <$> products_workshop T) then Err (ErrPg PrimaryKeyViolation)
  else if bool_decide ((pid, wid) ∈ (λ r, (product_id r, workshop_id r)) <$> products_workshop T)
    then Err (ErrPg UniqueViolation)
  else if negb (bool_decide (pid ∈ p_id <$> products T)) then Err (ErrPg ForeignKeyViolation)
  else if negb (bool_decide (wid ∈ w_id <$> workshops T)) then Err (ErrPg ForeignKeyViolation)
  else Ok (set_products_workshop T
         (products_workshop T ++
          [ {| pw_id := id; product_id := pid; workshop_id := wid;
               production_time := Some time |} ])).

(** [DELETE FROM products WHERE id = $1]: the number of deleted rows and the
    new state; the links of a deleted product go with it (CASCADE). *)
Definition delete_products (T : Tables) (id : Z) : Z * Tables :=
  let hit := filter (λ p, p_id p = id) (products T) in
  (Z.of_nat (length hit),
   {| materials := materials T; products_types := products_types T;
      workshops := workshops T;
      products := filter (λ p, p_id p ≠ id) (products T);
      products_workshop :=
        match hit with
        | [] => products_workshop T
        | _ => filter (λ pw, product_id pw ≠ id) (products_workshop T)
        end |}).

(** ** The world: engine state seen through one connection *)

Inductive tx_state :=
  | TxOpen (work : Tables)   (* working state, invisible until commit *)
  | TxAborted.               (* a statement failed: only rollback is possible *)

Record World := {
  db : Tables;                       (* committed rows *)
  products_id_seq : Z;               (* sequences are not transactional *)
  products_workshop_id_seq : Z;
  open_tx : option tx_state;         (* the transaction in progress, if any *)
  faults : list bool                 (* true: the next round trip fails *)
}.

Definition M (A : Type) : Type := World → A * World.

#[global] Instance M_ret : MRet M := λ A a w, (a, w).
#[global] Instance M_bind : MBind M := λ A B k m w, let '(a, w') := m w in k a w'.

Definition get_world : M World := λ w, (w, w).

Definition set_db (T : Tables) : M unit := λ w,
  ((), {| db := T; products_id_seq := products_id_seq w;
          products_workshop_id_seq := products_workshop_id_seq w;
          open_tx := open_tx w; faults := faults w |}).

Definition set_open_tx (t : option tx_state) : M unit := λ w,
  ((), {| db := db w; products_id_seq := products_id_seq w;
          products_workshop_id_seq := products_workshop_id_seq w;
          open_tx := t; faults := faults w |}).

(** One round trip: consumes the head of the schedule; an exhausted schedule
    means no further failure. *)
Definition next_fails (w : World) : bool := default false (head (faults w)).

Definition round_trip : M bool := λ w,
  (next_fails w,
   {| db := db w; products_id_seq := products_id_seq w;
      products_workshop_id_seq := products_workshop_id_seq w;
      open_tx := open_tx w; faults := tail (faults w) |}).

(** [nextval('products_id_seq')] *)
Definition nextval_products : M Z := λ w,
  (products_id_seq w + 1,
   {| db := db w; products_id_seq := products_id_seq w + 1;
      products_workshop_id_seq := products_workshop_id_seq w;
      open_tx := open_tx w; faults := faults w |}).

(** [nextval('products_workshop_id_seq')] *)
Definition nextval_products_workshop : M Z := λ w,
  (products_workshop_id_seq w + 1,
   {| db := db w; products_id_seq := products_id_seq w;
      products_workshop_id_seq := products_workshop_id_seq w + 1;
      open_tx := open_tx w; faults := faults w |}).

(** [pool.Begin]: the transaction starts from the committed rows. *)
Definition pool_Begin : M (result unit) :=
  failed ← round_trip;
  if failed : bool then mret (Err (ErrPg ConnFailure))
  else
    w ← get_world;
    _ ← set_open_tx (Some (TxOpen (db w)));
    mret (Ok ()).

(** [tx.Commit]: the handle is closed afterwards whatever the outcome; only
    a commit of an open transaction that the engine acknowledges publishes
    the working state. *)
Definition tx_Commit : M (result unit) :=
  w ← get_world;
  match open_tx w with
  | None => mret (Err (ErrPg TxClosed))
  | Some st =>
      failed ← round_trip;
      _ ← set_open_tx None;
      if failed : bool then mret (Err (ErrPg ConnFailure))
      else
        match st with
        | TxOpen work => _ ← set_db work; mret (Ok ())
        | TxAborted => mret (Err (ErrPg TxCommitRollback))
        end
  end.

(** [tx.Rollback]: discards the working state; on a closed handle it only
    returns [ErrTxClosed].  No failure is drawn: when the round trip of a
    rollback fails the driver closes the connection, and the engine discards
    the transaction all the same. *)
Definition tx_Rollback : M (result unit) :=
  w ← get_world;
  match open_tx w with
  | None => mret (Err (ErrPg TxClosed))
  | Some _ => _ ← set_open_tx None; mret (Ok ())
  end.

(** Runs one statement inside the transaction: a failure of the round trip
    or of the statement aborts the transaction. *)
Definition in_tx {A} (stmt : Tables → M (result (A * Tables))) : M (result A) :=
  w ← get_world;
  match open_tx w with
  | None => mret (Err (ErrPg TxClosed))
  | Some TxAborted => mret (Err (ErrPg InFailedTx))
  | Some (TxOpen work) =>
      failed ← round_trip;
      if failed : bool then _ ← set_open_tx (Some TxAborted); mret (Err (ErrPg ConnFailure))
      else
        r ← stmt work;
        match r with
        | Err e => _ ← set_open_tx (Some TxAborted); mret (Err e)
        | Ok (a, work') => _ ← set_open_tx (Some (TxOpen work')); mret (Ok a)
        end
  end.

(** Runs one statement on the pool or a plain connection (autocommit). *)
Definition autocommit {A} (stmt : Tables → M (result (A * Tables))) : M (result A) :=
  failed ← round_trip;
  if failed : bool then mret (Err (ErrPg ConnFailure))
  else
    w ← get_world;
    r ← stmt (db w);
    match r with
    | Err e => mret (Err e)
    | Ok (a, T') => _ ← set_db T'; mret (Ok a)
    end.

(** ** The server ([main.go]) *)

Section Program.
Context `{Platform}.

(** *** Models *)

Record ProductWithTime := {
  ID : Z;
  ProductName : string;
  MaterialName : string;
  TypeName : string;
  MinPrice : float64;
  Article : string;
  TotalProductionTime : float64
}.

Record CreateProductInput := {
  cp_ProductName : string;
  cp_MaterialID : Z;
  cp_TypeID : Z;
  cp_MinPrice : float64;
  cp_Article : string
}.

Record WorkshopInput := {
  WorkshopID : Z;
  ProductionTime : float64
}.

Record CreateProductWithWorkshopsInput := {
  cw_ProductName : string;
  cw_MaterialID : Z;
  cw_TypeID : Z;
  cw_MinPrice : float64;
  cw_Article : string;
  Workshops : list WorkshopInput
}.

(** *** The aggregating query

    [FROM products p JOIN materials m ON p.material_id = m.id
     JOIN products_types pt ON p.type_id = pt.id
     LEFT JOIN products_workshop pw ON pw.product_id = p.id] *)

Record joined_row := {
  j_p : products_row;
  j_m : materials_row;
  j_pt : products_types_row;
  j_pw : option products_workshop_row    (* None: the row padded with NULLs *)
}.

Definition left_join_pw (T : Tables) (p : products_row) (m : materials_row)
    (pt : products_types_row) : list joined_row :=
  match filter (λ pw, product_id pw = p_id p) (products_workshop T) with
  | [] => [ {| j_p := p; j_m := m; j_pt := pt; j_pw := None |} ]
  | pws => (λ pw, {| j_p := p; j_m := m; j_pt := pt; j_pw := Some pw |}) <$> pws
  end.

Definition joins_of_product (T : Tables) (p : products_row) : list joined_row :=
  m ← filter (λ m, material_id p = m_id m) (materials T);
  pt ← filter (λ pt, type_id p = pt_id pt) (products_types T);
  left_join_pw T p m pt.

Definition from_joins (T : Tables) : list joined_row :=
  p ← products T; joins_of_product T p.

(** [GROUP BY p.id, p.product_name, m.material_name, pt.type_name,
    p.min_price, p.article] *)
Definition group_key : Type :=
  Z * string * string * string * option numeric * option string.

#[global] Instance numeric_eq_dec : EqDecision numeric.
Proof. solve_decision. Defined.

Definition key_of (j : joined_row) : group_key :=
  (p_id (j_p j), product_name (j_p j), material_name (j_m j),
   type_name (j_pt j), min_price (j_p j), article (j_p j)).

(** [pw.production_time] of a joined row: NULL on the padded row. *)
Definition pw_production_time (j : joined_row) : option numeric :=
  pw ← j_pw j; production_time pw.

(** SQL [SUM]: NULL inputs are skipped; without any input the result is NULL. *)
Definition SUM (col : list (option numeric)) : option numeric :=
  match omap id col with
  | [] => None
  | vals => Some (foldr numeric_add (Num 0) vals)
  end.

Definition COALESCE (v : option numeric) (d : numeric) : numeric := default d v.

(** One row of the select list. *)
Record select_row := {
  s_id : Z;
  s_product_name : string;
  s_material_name : string;
  s_type_name : string;
  s_min_price : option numeric;
  s_article : option string;
  s_total_production_time : numeric
}.

Definition select_group (rows : list joined_row) (k : group_key) : select_row :=
  let '(id, pname, mname, tname, price, art) := k in
  {| s_id := id; s_product_name := pname; s_material_name := mname;
     s_type_name := tname; s_min_price := price; s_article := art;
     s_total_production_time :=
       COALESCE (SUM (pw_production_time <$> filter (λ j, key_of j = k) rows)) (Num 0) |}.

Definition group_by_and_select (rows : list joined_row) : list select_row :=
  select_group rows <$> remove_dups (key_of <$> rows).

(** [ORDER BY p.id] *)
Definition by_id (a b : select_row) : Prop := s_id a ≤ s_id b.

#[global] Instance by_id_dec : RelDecision by_id.
Proof. intros a b. unfold by_id. apply _. Defined.

(** The query of [GetAllProducts]. *)
Definition query_all_products (T : Tables) : list select_row :=
  merge_sort by_id (group_by_and_select (from_joins T)).

(** The query of [GetProductByID], with [WHERE p.id = $1]. *)
Definition query_product_by_id (T : Tables) (id : Z) : list select_row :=
  group_by_and_select (filter (λ j, p_id (j_p j) = id) (from_joins T)).

(** [rows.Scan] into a [ProductWithTime]: a NULL price or article cannot be
    stored in a [float64] or a [string]. *)
Definition Scan_product (r : select_row) : result ProductWithTime :=
  match s_min_price r, s_article r with
  | Some price, Some art =>
      Ok {| ID := s_id r; ProductName := s_product_name r;
            MaterialName := s_material_name r; TypeName := s_type_name r;
            MinPrice := float64_of_numeric price; Article := art;
            TotalProductionTime := float64_of_numeric (s_total_production_time r) |}
  | _, _ => Err (ErrPg ScanNull)
  end.

(** The [for rows.Next()] loop of [GetAllProducts]. *)
Fixpoint scan_products (rows : list select_row) (products : list ProductWithTime)
    : result (list ProductWithTime) :=
  match rows with
  | [] => Ok products
  | r :: rows' =>
      match Scan_product r with
      | Err err => Err err
      | Ok p => scan_products rows' (products ++ [p])
      end
  end.

(** *** Repository layer *)

(** A failure of the round trip stands for an error of [pool.Query] or of
    [rows.Err]: both return [nil, err]. *)
Definition GetAllProducts : M (result (list ProductWithTime)) :=
  autocommit (λ T,
    mret (match scan_products (query_all_products T) [] with
          | Err err => Err err
          | Ok products => Ok (products, T)
          end)).

(** [nil, nil] is [Ok None]. *)
Definition GetProductByID (id : Z) : M (result (option ProductWithTime)) :=
  r ← autocommit (λ T,
         mret (match query_product_by_id T id with
               | [] => Err ErrNoRows
               | row :: _ =>
                   match Scan_product row with
                   | Err err => Err err
                   | Ok p => Ok (p, T)
                   end
               end));
  match r with
  | Err ErrNoRows => mret (Ok None)
  | Err err => mret (Err err)
  | Ok p => mret (Ok (Some p))
  end.

(** [INSERT INTO products (...) VALUES ($1, $2, $3, $4, $5) RETURNING id] *)
Definition stmt_insert_product (name : string) (mid tid : Z) (price : float64)
    (art : string) (T : Tables) : M (result (Z * Tables)) :=
  id ← nextval_products;
  match numeric_of_float64 price with
  | None => mret (Err (ErrPg NumericOutOfRange))
  | Some price' =>
      match insert_products T id name mid tid price' art with
      | Err e => mret (Err e)
      | Ok T' => mret (Ok (id, T'))
      end
  end.

(** [INSERT INTO products_workshop (product_id, workshop_id, production_time)
    VALUES ($1, $2, $3)] *)
Definition stmt_insert_link (pid wid : Z) (time : float64) (T : Tables)
    : M (result (unit * Tables)) :=
  id ← nextval_products_workshop;
  match numeric_of_float64 time with
  | None => mret (Err (ErrPg NumericOutOfRange))
  | Some time' =>
      match insert_products_workshop T id pid wid time' with
      | Err e => mret (Err e)
      | Ok T' => mret (Ok ((), T'))
      end
  end.

Definition CreateProduct (input : CreateProductInput) : M (result Z) :=
  autocommit (stmt_insert_product (cp_ProductName input) (cp_MaterialID input)
                (cp_TypeID input) (cp_MinPrice input) (cp_Article input)).

(** The [for _, workshop := range input.Workshops] loop. *)
Fixpoint add_workshops (productID : Z) (ws : list WorkshopInput) : M (result unit) :=
  match ws with
  | [] => mret (Ok ())
  | workshop :: rest =>
      r ← in_tx (stmt_insert_link productID (WorkshopID workshop) (ProductionTime workshop));
      match r with
      | Err err => mret (Err (ErrAddWorkshop (WorkshopID workshop) err))
      | Ok _ => add_workshops productID rest
      end
  end.

(** The statements between [defer tx.Rollback(ctx)] and the return. *)
Definition create_in_tx (input : CreateProductWithWorkshopsInput) : M (result Z) :=
  r ← in_tx (stmt_insert_product (cw_ProductName input) (cw_MaterialID input)
               (cw_TypeID input) (cw_MinPrice input) (cw_Article input));
  match r with
  | Err err => mret (Err (ErrCreateProduct err))
  | Ok productID =>
      r ← (if decide (0 < length (Workshops input))%nat
           then add_workshops productID (Workshops input)
           else mret (Ok ()));
      match r with
      | Err err => mret (Err err)
      | Ok _ =>
          r ← tx_Commit;
          match r with
          | Err err => mret (Err (ErrCommitTx err))
          | Ok _ => mret (Ok productID)
          end
      end
  end.

Definition CreateProductWithWorkshops (input : CreateProductWithWorkshopsInput)
    : M (result Z) :=
  r ← pool_Begin;
  match r with
  | Err err => mret (Err (ErrBeginTx err))
  | Ok _ =>
      res ← create_in_tx input;
      _ ← tx_Rollback;              (* the deferred call *)
      mret res
  end.

Record CommandTag := { RowsAffected : Z }.

(** [pool.Exec(ctx, "DELETE FROM products WHERE id = $1", id)]: on an error
    the driver returns the empty command tag, whose row count is zero. *)
Definition pool_Exec_delete (product_id : Z) : M (CommandTag * option error) :=
  failed ← round_trip;
  if failed : bool then mret ({| RowsAffected := 0 |}, Some (ErrPg ConnFailure))
  else
    w ← get_world;
    let '(n, T') := delete_products (db w) product_id in
    _ ← set_db T';
    mret ({| RowsAffected := n |}, None).

(** The two checks of [DeleteById], in the order of the source. *)
Definition delete_outcome (result : CommandTag) (err : option error) : option error :=
  if decide (RowsAffected result = 0) then Some ErrNothingDeleted
  else match err with
       | Some _ => Some ErrDelete
       | None => None
       end.

Definition DeleteById (product_id : Z) : M (option error) :=
  '(result, err) ← pool_Exec_delete product_id;
  mret (delete_outcome result err).

(** *** HTTP layer *)

Definition StatusOK : Z := 200.
Definition StatusCreated : Z := 201.
Definition StatusBadRequest : Z := 400.
Definition StatusNotFound : Z := 404.
Definition StatusInternalServerError : Z := 500.
Definition StatusBadGateway : Z := 502.

(** The texts of the JSON bodies, one constructor per literal of the source. *)
Inductive api_message :=
  | MsgProductsUnavailable              (* list query failed *)
  | MsgBadProductID                     (* GET: id is not a number *)
  | MsgProductUnavailable               (* GET: query failed *)
  | MsgProductNotFound
  | MsgBadData                          (* body rejected by ShouldBindJSON *)
  | MsgNotCreated                       (* POST: insert failed *)
  | MsgNotCreatedBecause (err : error)  (* POST with workshops: text plus err.Error() *)
  | MsgCreatedButNotRead                (* created, but its data could not be read *)
  | MsgBadId                            (* DELETE: id is not a number *)
  | MsgDeleteFailed
  | MsgDeleted.

Inductive json_body :=
  | JError (m : api_message)                                (* gin.H{"error": ...} *)
  | JMessage (m : api_message)                              (* gin.H{"message": ...} *)
  | JProduct (p : option ProductWithTime)                   (* a *ProductWithTime; nil is null *)
  | JProducts (products : list ProductWithTime) (count : Z). (* gin.H{"products", "count"} *)

(** One call of [c.JSON]. *)
Record response := { status : Z; body : json_body }.

(** What a handler reads from its [*gin.Context]: the path parameters and
    the outcome of [ShouldBindJSON] for the body ([None]: binding error). *)
Record gin_request := {
  params : list (string * string);
  json_product : option CreateProductInput;
  json_product_with_workshops : option CreateProductWithWorkshopsInput
}.

(** [c.Param(key)]: the empty string when the route has no such parameter. *)
Fixpoint lookup_param (ps : list (string * string)) (key : string) : string :=
  match ps with
  | [] => ""
  | (k, v) :: ps' => if decide (k = key) then v else lookup_param ps' key
  end.

Definition Param (c : gin_request) (key : string) : string :=
  lookup_param (params c) key.

(** A handler is run for the [c.JSON] calls it makes, in order. *)
Definition handler : Type := gin_request → M (list response).

(** GET /api/products *)
Definition GetProductsHandler : handler := λ c,
  r ← GetAllProducts;
  match r with
  | Err err => mret [ {| status := StatusInternalServerError; body := JError MsgProductsUnavailable |} ]
  | Ok products =>
      mret [ {| status := StatusOK; body := JProducts products (Z.of_nat (length products)) |} ]
  end.

(** GET /api/products/:id *)
Definition GetProductByIDHandler : handler := λ c,
  let id := Param c "id" in
  match Sscanf_d id with
  | None => mret [ {| status := StatusBadRequest; body := JError MsgBadProductID |} ]
  | Some productID =>
      r ← GetProductByID productID;
      match r with
      | Err err =>
          mret [ {| status := StatusInternalServerError; body := JError MsgProductUnavailable |} ]
      | Ok None => mret [ {| status := StatusNotFound; body := JError MsgProductNotFound |} ]
      | Ok (Some product) => mret [ {| status := StatusOK; body := JProduct (Some product) |} ]
      end
  end.

(** POST /api/products *)
Definition CreateProductHandler : handler := λ c,
  match json_product c with
  | None => mret [ {| status := StatusBadRequest; body := JError MsgBadData |} ]
  | Some input =>
      r ← CreateProduct input;
      match r with
      | Err err => mret [ {| status := StatusInternalServerError; body := JError MsgNotCreated |} ]
      | Ok productID =>
          r ← GetProductByID productID;
          match r with
          | Err err =>
              mret [ {| status := StatusInternalServerError; body := JError MsgCreatedButNotRead |} ]
          | Ok product => mret [ {| status := StatusCreated; body := JProduct product |} ]
          end
      end
  end.

(** POST /api/products/with-workshops *)
Definition CreateProductWithWorkshopsHandler : handler := λ c,
  match json_product_with_workshops c with
  | None => mret [ {| status := StatusBadRequest; body := JError MsgBadData |} ]
  | Some input =>
      r ← CreateProductWithWorkshops input;
      match r with
      | Err err =>
          mret [ {| status := StatusInternalServerError; body := JError (MsgNotCreatedBecause err) |} ]
      | Ok productID =>
          r ← GetProductByID productID;
          match r with
          | Err err =>
              mret [ {| status := StatusInternalServerError; body := JError MsgCreatedButNotRead |} ]
          | Ok product => mret [ {| status := StatusCreated; body := JProduct product |} ]
          end
      end
  end.

(** DELETE /api/products/:id, the method [Server.DeleteById] of [main.go]. *)
Definition Server_DeleteById : handler := λ c,
  let id := Param c "id" in
  match Sscanf_d id with
  | None => mret [ {| status := StatusBadRequest; body := JError MsgBadId |} ]
  | Some product_id =>
      err ← DeleteById product_id;
      match err with
      | Some _ => mret [ {| status := StatusBadGateway; body := JError MsgDeleteFailed |} ]
      | None => mret [ {| status := StatusOK; body := JMessage MsgDeleted |} ]
      end
  end.

(** [Server.DeleteById] of the earlier copy: the failure branch has no
    [return], so the success body is written after the error body. *)
Definition Server_DeleteById_v0 : handler := λ c,
  let id := Param c "id" in
  match Sscanf_d id with
  | None => mret [ {| status := StatusBadRequest; body := JError MsgBadId |} ]
  | Some product_id =>
      err ← DeleteById product_id;
      let written :=
        match err with
        | Some _ => [ {| status := StatusBadGateway; body := JError MsgDeleteFailed |} ]
        | None => []
        end in
      mret (written ++ [ {| status := StatusOK; body := JMessage MsgDeleted |} ])%list
  end.

(** *** Routes *)

Inductive handler_name :=
  | hGetProducts | hGetProductByID | hCreateProduct | hCreateProductWithWorkshops
  | hDeleteById
  | hProductsList | hProductsNew | hProductsCreate | hProductsDelete.

Record route := { r_method : string; r_path : string; r_handler : handler_name }.

(** [r.Group(prefix)] followed by registrations relative to the group. *)
Definition Group (prefix : string) (rs : list route) : list route :=
  (λ r, {| r_method := r_method r; r_path := (prefix ++ r_path r)%string;
           r_handler := r_handler r |}) <$> rs.

(** The registrations of [main] in [main.go]. *)
Definition routes : list route :=
  Group "/api"
    [ {| r_method := "GET"; r_path := "/products"; r_handler := hGetProducts |};
      {| r_method := "GET"; r_path := "/products/:id"; r_handler := hGetProductByID |};
      {| r_method := "POST"; r_path := "/products"; r_handler := hCreateProduct |};
      {| r_method := "POST"; r_path := "/products/with-workshops";
         r_handler := hCreateProductWithWorkshops |};
      {| r_method := "DELETE"; r_path := "/products/:id"; r_handler := hDeleteById |} ]
  ++ [ {| r_method := "GET"; r_path := "/"; r_handler := hProductsList |};
       {| r_method := "GET"; r_path := "/products/new"; r_handler := hProductsNew |};
       {| r_method := "POST"; r_path := "/products/create"; r_handler := hProductsCreate |};
       {| r_method := "POST"; r_path := "/products/:id/delete"; r_handler := hProductsDelete |} ].

(** The registrations of [main] in the earlier copy. *)
Definition routes_v0 : list route :=
  Group "/api"
    [ {| r_method := "GET"; r_path := "/products"; r_handler := hGetProducts |};
      {| r_method := "GET"; r_path := "/products/:id"; r_handler := hGetProductByID |};
      {| r_method := "POST"; r_path := "/products"; r_handler := hCreateProduct |};
      {| r_method := "POST"; r_path := "/products/with-workshops";
         r_handler := hCreateProductWithWorkshops |};
      {| r_method := "DELETE"; r_path := "/products"; r_handler := hDeleteById |} ].

(** Path segments between slashes. *)
Fixpoint segments_from (cur : string) (s : string) : list string :=
  match s with
  | EmptyString => [cur]
  | String c s' =>
      if Ascii.eqb c "/" then cur :: segments_from "" s'
      else segments_from (cur ++ String c EmptyString)%string s'
  end.

Definition segments (s : string) : list string := segments_from "" s.

(** Matching of a request path against a registered pattern: a segment
    [:name] of the pattern takes any non-empty segment and binds it. *)
Fixpoint match_segments (pattern path : list string) : option (list (string * string)) :=
  match pattern, path with
  | [], [] => Some []
  | ps :: pattern', s :: path' =>
      match ps with
      | String ":" name =>
          if decide (s = "") then None
          else ps' ← match_segments pattern' path'; Some ((name, s) :: ps')
      | _ => if decide (ps = s) then match_segments pattern' path' else None
      end
  | _, _ => None
  end.

Fixpoint dispatch (rs : list route) (method path : string)
    : option (handler_name * list (string * string)) :=
  match rs with
  | [] => None
  | r :: rs' =>
      if decide (r_method r = method) then
        match match_segments (segments (r_path r)) (segments path) with
        | Some ps => Some (r_handler r, ps)
        | None => dispatch rs' method path
        end
      else dispatch rs' method path
  end.

(** The handlers of the JSON API; the HTML pages are not part of this
    development.  [del] is the delete handler of the copy at hand. *)
Definition api_handler (del : handler) (h : handler_name) : option handler :=
  match h with
  | hGetProducts => Some GetProductsHandler
  | hGetProductByID => Some GetProductByIDHandler
  | hCreateProduct => Some CreateProductHandler
  | hCreateProductWithWorkshops => Some CreateProductWithWorkshopsHandler
  | hDeleteById => Some del
  | _ => None
  end.

(** One request against a route table: [None] when no API route takes it. *)
Definition serve (rs : list route) (del : handler) (method path : string)
    (body1 : option CreateProductInput)
    (body2 : option CreateProductWithWorkshopsInput) : M (option (list response)) :=
  match dispatch rs method path with
  | None => mret None
  | Some (h, ps) =>
      match api_handler del h with
      | None => mret None
      | Some run =>
          rs ← run {| params := ps; json_product := body1;
                      json_product_with_workshops := body2 |};
          mret (Some rs)
      end
  end.

(** ** The importer *)

(** Go [int] is 64 bits wide here. *)
Definition wrap64 (z : Z) : Z := (z + 2 ^ 63) mod 2 ^ 64 - 2 ^ 63.

Definition parseDecimal (s : string) : result float64 :=
  let s := TrimSpace s in
  let s := ReplaceAll s "," "." in
  let s := ReplaceAll s " " "" in
  if decide (s = "") then Ok float64_zero
  else
    match ParseFloat s with
    | Err err => Err (ErrInvalidNumber err)
    | Ok value => Ok value
    end.

(** [SELECT id FROM materials WHERE LOWER(material_name) = LOWER($1)],
    of which [QueryRow] takes the first row. *)
Definition getMaterialID (materialName : string) : M (result Z) :=
  r ← autocommit (λ T,
         mret (match filter (λ m, LOWER (material_name m) = LOWER materialName) (materials T) with
               | [] => Err ErrNoRows
               | m :: _ => Ok (m_id m, T)
               end));
  match r with
  | Err ErrNoRows => mret (Err (ErrMaterialNotFound materialName))
  | Err err => mret (Err (ErrMaterialLookup err))
  | Ok id => mret (Ok id)
  end.

(** [SELECT id FROM products_types WHERE LOWER(type_name) = LOWER($1)] *)
Definition getTypeID (typeName : string) : M (result Z) :=
  r ← autocommit (λ T,
         mret (match filter (λ pt, LOWER (type_name pt) = LOWER typeName) (products_types T) with
               | [] => Err ErrNoRows
               | pt :: _ => Ok (pt_id pt, T)
               end));
  match r with
  | Err ErrNoRows => mret (Err (ErrTypeNotFound typeName))
  | Err err => mret (Err (ErrTypeLookup err))
  | Ok id => mret (Ok id)
  end.

(** What [log.Printf] records for a skipped row. *)
Inductive row_failure :=
  | ShortRow
  | BadPrice (shown : string) (err : error)   (* the cell printed is row[4] *)
  | BadLookup (err : error)
  | BadInsert (err : error).

Record import_state := {
  successCount : Z;
  errorCount : Z;
  logged : list (Z * row_failure)     (* line number, failure *)
}.

Definition count_success (st : import_state) : import_state :=
  {| successCount := wrap64 (successCount st + 1); errorCount := errorCount st;
     logged := logged st |}.

Definition count_error (st : import_state) (line : Z) (f : row_failure) : import_state :=
  {| successCount := successCount st; errorCount := wrap64 (errorCount st + 1);
     logged := (logged st ++ [(line, f)])%list |}.

(** [row[k]]; every use follows the check [len(row) < 5]. *)
Definition cell (row : list string) (k : nat) : string := nth k row "".

(** The body of the loop for a row that is not the header. *)
Definition import_row (i : Z) (row : list string) (st : import_state) : M import_state :=
  if decide (length row < 5)%nat then mret (count_error st (wrap64 (i + 1)) ShortRow)
  else
    let productName := TrimSpace (cell row 1) in
    let materialName := TrimSpace (cell row 4) in
    let article := TrimSpace (cell row 2) in
    let typeName := TrimSpace (cell row 0) in
    match parseDecimal (cell row 3) with
    | Err err => mret (count_error st (wrap64 (i + 1)) (BadPrice (cell row 4) err))
    | Ok minPrice =>
        r ← getMaterialID materialName;
        match r with
        | Err err => mret (count_error st (wrap64 (i + 1)) (BadLookup err))
        | Ok materialID =>
            r ← getTypeID typeName;
            match r with
            | Err err => mret (count_error st (wrap64 (i + 1)) (BadLookup err))
            | Ok typeID =>
                r ← autocommit (stmt_insert_product productName materialID typeID minPrice article);
                match r with
                | Err err => mret (count_error st (wrap64 (i + 1)) (BadInsert err))
                | Ok _ => mret (count_success st)
                end
            end
        end
    end.

(** [for i, row := range rows], from index [i] on. *)
Fixpoint import_rows (i : Z) (rows : list (list string)) (st : import_state)
    : M import_state :=
  match rows with
  | [] => mret st
  | row :: rest =>
      if decide (i = 0) then import_rows (i + 1) rest st
      else st' ← import_row i row st; import_rows (i + 1) rest st'
  end.

(** The importer's [main] from the rows of the first sheet on; the two
    counters of the final state are what it prints. *)
Definition import_main (rows : list (list string)) : M import_state :=
  import_rows 0 rows {| successCount := 0; errorCount := 0; logged := [] |}.

(** In the words of the specification: what is left of a trimmed cell once
    spaces and commas are removed, and once only spaces are removed. *)
Fixpoint without_spaces_and_commas (s : string) : string :=
  match s with
  | EmptyString => EmptyString
  | String c s' =>
      if Ascii.eqb c " " || Ascii.eqb c "," then without_spaces_and_commas s'
      else String c (without_spaces_and_commas s')
  end.

Fixpoint without_spaces (s : string) : string :=
  match s with
  | EmptyString => EmptyString
  | String c s' =>
      if Ascii.eqb c " " then without_spaces s'
      else String c (without_spaces s')
  end.

(** *** Vocabulary of the statements *)

(** The reference tables of two states agree. *)
Definition same_reference (T T' : Tables) : Prop :=
  materials T' = materials T
  ∧ products_types T' = products_types T
  ∧ workshops T' = workshops T.

(** [p] is the row created from [input] under the identifier [productID]. *)
Definition product_created (productID : Z) (input : CreateProductWithWorkshopsInput)
    (p : products_row) : Prop :=
  p_id p = productID
  ∧ product_name p = cw_ProductName input
  ∧ material_id p = cw_MaterialID input
  ∧ type_id p = cw_TypeID input
  ∧ min_price p = numeric_of_float64 (cw_MinPrice input)
  ∧ article p = Some (cw_Article input).

(** [l] is the link row created for the pair [ws] of product [productID]. *)
Definition link_created (productID : Z) (ws : WorkshopInput)
    (l : products_workshop_row) : Prop :=
  product_id l = productID
  ∧ workshop_id l = WorkshopID ws
  ∧ production_time l = numeric_of_float64 (ProductionTime ws).

(** The error names the step of [CreateProductWithWorkshops] that failed. *)
Definition creation_failure (e : error) : Prop :=
  (∃ cause, e = ErrBeginTx cause)
  ∨ (∃ cause, e = ErrCreateProduct cause)
  ∨ (∃ k cause, e = ErrAddWorkshop k cause)
  ∨ (∃ cause, e = ErrCommitTx cause).

(** The links of product [id] and the sum of their times; links whose
    time is NULL have no time to add. *)
Definition links_of (T : Tables) (id : Z) : list products_workshop_row :=
  filter (λ pw, product_id pw = id) (products_workshop T).

Definition total_time (links : list products_workshop_row) : numeric :=
  foldr numeric_add (Num 0) (omap production_time links).

(** The primary keys of the three joined tables hold. *)
Definition keys_unique (T : Tables) : Prop :=
  NoDup (p_id <$> products T)
  ∧ NoDup (m_id <$> materials T)
  ∧ NoDup (pt_id <$> products_types T).

(** The comma read as the decimal point. *)
Fixpoint comma_to_point (s : string) : string :=
  match s with
  | EmptyString => EmptyString
  | String c s' => String (if Ascii.eqb c "," then "."%char else c) (comma_to_point s')
  end.

(** A stored name that equals [name] up to letter case. *)
Definition material_matches (T : Tables) (name : string) (m : materials_row) : Prop :=
  m ∈ materials T ∧ LOWER (material_name m) = LOWER name.

Definition type_matches (T : Tables) (name : string) (pt : products_types_row) : Prop :=
  pt ∈ products_types T ∧ LOWER (type_name pt) = LOWER name.

(** *** Integrity declared by the schema *)

(** The primary keys, the uniqueness of the pair (product, workshop) and
    the four foreign keys. *)
Definition db_consistent (T : Tables) : Prop :=
  NoDup (m_id <$> materials T)
  ∧ NoDup (pt_id <$> products_types T)
  ∧ NoDup (w_id <$> workshops T)
  ∧ NoDup (p_id <$> products T)
  ∧ NoDup (pw_id <$> products_workshop T)
  ∧ NoDup ((λ l, (product_id l, workshop_id l)) <$> products_workshop T)
  ∧ (∀ p, p ∈ products T →
       material_id p ∈ m_id <$> materials T ∧ type_id p ∈ pt_id <$> products_types T)
  ∧ (∀ l, l ∈ products_workshop T →
       product_id l ∈ p_id <$> products T ∧ workshop_id l ∈ w_id <$> workshops T).

(** [p] is the row created from [input] under the identifier [id]. *)
Definition product_stored (id : Z) (input : CreateProductInput) (p : products_row) : Prop :=
  p_id p = id
  ∧ product_name p = cp_ProductName input
  ∧ material_id p = cp_MaterialID input
  ∧ type_id p = cp_TypeID input
  ∧ min_price p = numeric_of_float64 (cp_MinPrice input)
  ∧ article p = Some (cp_Article input).

(** The sum of the times of a request as the engine stores them. *)
Definition times_total (ws : list WorkshopInput) : numeric :=
  foldr numeric_add (Num 0) (omap (λ x, numeric_of_float64 (ProductionTime x)) ws).

End Program.

(** ** The HTML pages ([main.go])

    The handlers of the pages read a form and answer with a rendered
    template or a redirect.  What they take from the Go library and from the
    database collation is the class [PageEnv]. *)

Class PageEnv `{Platform} := {
  (** [strconv.Atoi(s)]: the pair it returns, value and error *)
  Atoi : string → Z * option error;
  (** the value [strconv.ParseFloat(s, 64)] returns, whatever its error *)
  ParseFloat_value : string → float64;
  (** [x > 0] on [float64] *)
  float64_positive : float64 → bool;
  (** the order of [ORDER BY] on a name column under the database collation *)
  collate_leb : string → string → bool
}.

Section Pages.
Context `{PageEnv}.

Record Material := { Material_ID : Z; Material_MaterialName : string }.
Record ProductType := { ProductType_ID : Z; ProductType_TypeName : string }.
Record Workshop := { Workshop_ID : Z; Workshop_Name : string }.

(** *** Reference lists *)

(** The rows a result stream delivers: all of them, or the first [n] when
    the stream breaks ([cut = Some n]); the flag is what [rows.Err()] would
    report. *)
Definition deliver {A} (cut : option nat) (rows : list A) : list A * bool :=
  match cut with
  | None => (rows, false)
  | Some n => (take n rows, true)
  end.

Definition workshops_by_name (a b : workshops_row) : Prop :=
  collate_leb (w_name a) (w_name b) = true.
Definition materials_by_name (a b : materials_row) : Prop :=
  collate_leb (material_name a) (material_name b) = true.
Definition types_by_name (a b : products_types_row) : Prop :=
  collate_leb (type_name a) (type_name b) = true.

#[global] Instance workshops_by_name_dec : RelDecision workshops_by_name.
Proof. intros a b. unfold workshops_by_name. apply _. Defined.
#[global] Instance materials_by_name_dec : RelDecision materials_by_name.
Proof. intros a b. unfold materials_by_name. apply _. Defined.
#[global] Instance types_by_name_dec : RelDecision types_by_name.
Proof. intros a b. unfold types_by_name. apply _. Defined.

(** [SELECT id, name FROM workshops ORDER BY name]; after the loop the
    error of the stream is checked. *)
Definition GetAllWorkshops (cut : option nat) : M (result (list Workshop)) :=
  failed ← round_trip;
  if failed : bool then mret (Err (ErrPg ConnFailure))
  else
    w ← get_world;
    let '(rows, broken) := deliver cut (merge_sort workshops_by_name (workshops (db w))) in
    let workshops :=
      (λ r, {| Workshop_ID := w_id r; Workshop_Name := w_name r |}) <$> rows in
    if broken : bool then mret (Err (ErrPg ConnFailure)) else mret (Ok workshops).

(** [SELECT id, material_name FROM materials ORDER BY material_name]; the
    function returns after the loop without looking at [rows.Err()]. *)
Definition GetAllMaterials (cut : option nat) : M (result (list Material)) :=
  failed ← round_trip;
  if failed : bool then mret (Err (ErrPg ConnFailure))
  else
    w ← get_world;
    let '(rows, broken) := deliver cut (merge_sort materials_by_name (materials (db w))) in
    mret (Ok ((λ r, {| Material_ID := m_id r;
                       Material_MaterialName := material_name r |}) <$> rows)).

(** [SELECT id, type_name FROM products_types ORDER BY type_name]; as for
    the materials, [rows.Err()] is not looked at. *)
Definition GetAllProductTypes (cut : option nat) : M (result (list ProductType)) :=
  failed ← round_trip;
  if failed : bool then mret (Err (ErrPg ConnFailure))
  else
    w ← get_world;
    let '(rows, broken) :=
      deliver cut (merge_sort types_by_name (products_types (db w))) in
    mret (Ok ((λ r, {| ProductType_ID := pt_id r;
                       ProductType_TypeName := type_name r |}) <$> rows)).

(** *** Requests and answers of the pages *)

Record page_request := {
  page_params : list (string * string);
  PostForm_map : list (string * list string)   (* c.Request.PostForm, in the
                                                  order this run iterates it *)
}.

(** [c.PostForm(key)]: the first value of the key, or the empty string. *)
Fixpoint first_value (form : list (string * list string)) (key : string) : string :=
  match form with
  | [] => ""
  | (k, vs) :: form' =>
      if decide (k = key) then match vs with v :: _ => v | [] => "" end
      else first_value form' key
  end.

Definition PostForm (c : page_request) (key : string) : string :=
  first_value (PostForm_map c) key.

Inductive page_title := TitleCreateProduct.
Inductive page_name := PageProductsNew.

(** The [gin.H] of the creation form. *)
Record form_page := {
  h_Title : page_title;
  h_Page : page_name;
  h_Materials : list Material;
  h_Types : list ProductType;
  h_Workshops : list Workshop;
  h_Error : option error       (* the key "Error", with err.Error() in its text *)
}.

Inductive location :=
  | ToList                      (* "/" *)
  | ToListCreated               (* "/?message=..." after a creation *)
  | ToListDeleted               (* "/?message=..." after a deletion *)
  | ToListDeleteFailed.         (* "/?error=..." *)

Inductive page_response :=
  | RespHTML (status : Z) (data : form_page)       (* c.HTML(status, "layout.html", data) *)
  | RespRedirect (status : Z) (to : location).     (* c.Redirect(status, to) *)

Definition StatusSeeOther : Z := 303.

(** The list a lookup leaves when its error is dropped ([x, _ := ...]). *)
Definition or_nil {A} (r : result (list A)) : list A :=
  match r with Ok l => l | Err _ => [] end.

(** Where the three result streams of one request break, if they do. *)
Record stream_cuts := {
  cut_materials : option nat;
  cut_types : option nat;
  cut_workshops : option nat
}.

(** GET /products/new *)
Definition ProductsNewHandler (cuts : stream_cuts) (c : page_request) : M page_response :=
  materials ← GetAllMaterials (cut_materials cuts);
  types ← GetAllProductTypes (cut_types cuts);
  workshops ← GetAllWorkshops (cut_workshops cuts);
  mret (RespHTML StatusOK
          {| h_Title := TitleCreateProduct; h_Page := PageProductsNew;
             h_Materials := or_nil materials; h_Types := or_nil types;
             h_Workshops := or_nil workshops; h_Error := None |}).

(** The loop [for key := range c.Request.PostForm] of the creation. *)
Fixpoint collect_workshops (c : page_request) (keys : list string)
    (workshops : list WorkshopInput) : list WorkshopInput :=
  match keys with
  | [] => workshops
  | key :: keys' =>
      if bool_decide (12 < String.length key)%nat
         && String.eqb (substring 0 12 key) "workshop_id_"
      then
        let suffix := substring 12 (String.length key - 12) key in
        let workshopID := (Atoi (PostForm c ("workshop_id_" ++ suffix)%string)).1 in
        let productionTime :=
          ParseFloat_value (PostForm c ("production_time_" ++ suffix)%string) in
        if (0 <? workshopID) && float64_positive productionTime
        then collect_workshops c keys'
               (workshops ++ [ {| WorkshopID := workshopID;
                                  ProductionTime := productionTime |} ])
        else collect_workshops c keys' workshops
      else collect_workshops c keys' workshops
  end.

(** POST /products/create *)
Definition ProductsCreateHandler (cuts : stream_cuts) (c : page_request)
    : M page_response :=
  let productName := PostForm c "product_name" in
  let materialID := (Atoi (PostForm c "material_id")).1 in
  let typeID := (Atoi (PostForm c "type_id")).1 in
  let minPrice := ParseFloat_value (PostForm c "min_price") in
  let article := PostForm c "article" in
  let workshops := collect_workshops c ((PostForm_map c).*1) [] in
  let input :=
    {| cw_ProductName := productName; cw_MaterialID := materialID;
       cw_TypeID := typeID; cw_MinPrice := minPrice; cw_Article := article;
       Workshops := workshops |} in
  r ← CreateProductWithWorkshops input;
  match r with
  | Err err =>
      materials ← GetAllMaterials (cut_materials cuts);
      types ← GetAllProductTypes (cut_types cuts);
      workshopsData ← GetAllWorkshops (cut_workshops cuts);
      mret (RespHTML StatusBadRequest
              {| h_Title := TitleCreateProduct; h_Page := PageProductsNew;
                 h_Materials := or_nil materials; h_Types := or_nil types;
                 h_Workshops := or_nil workshopsData; h_Error := Some err |})
  | Ok _ => mret (RespRedirect StatusSeeOther ToListCreated)
  end.

(** POST /products/:id/delete *)
Definition ProductsDeleteHandler (c : page_request) : M page_response :=
  let id := lookup_param (page_params c) "id" in
  match Atoi id with
  | (_, Some _) => mret (RespRedirect StatusSeeOther ToList)
  | (productID, None) =>
      err ← DeleteById productID;
      match err with
      | Some _ => mret (RespRedirect StatusSeeOther ToListDeleteFailed)
      | None => mret (RespRedirect StatusSeeOther ToListDeleted)
      end
  end.

End Pages.

(** *** A concrete page environment for closed examples

    [Atoi_decimal] reads an optional sign and decimal digits and clamps a
    value out of the 64-bit range, with the range error; the value of a price
    that does not parse is zero; names are ordered byte by byte. *)

Definition Atoi_decimal (s : string) : Z * option error :=
  let '(neg, s1) := strip_sign s in
  let '(v, n, rest) := read_digits 0 0 s1 in
  match rest with
  | EmptyString =>
      if (n =? 0)%nat then (0, Some ErrSyntax)
      else
        let i := if neg then - v else v in
        if i <? - 2 ^ 63 then (- 2 ^ 63, Some ErrRange)
        else if 2 ^ 63 - 1 <? i then (2 ^ 63 - 1, Some ErrRange)
        else (i, None)
  | _ => (0, Some ErrSyntax)
  end.

Definition decimal_pages : @PageEnv decimal_platform :=
  @Build_PageEnv decimal_platform
    Atoi_decimal
    (λ s, match ParseFloat_decimal s with Ok q => q | Err _ => 0%Q end)
    (λ q : Q, if Qlt_le_dec 0 q then true else false)
    String.leb.

(** ** Sample data

    A small database, requests and a workbook on the concrete platform, for
    the closed examples. *)

Definition sample_tables : Tables := {|
  materials :=
    [ {| m_id := 1; material_name := "Oak"; wasting_percentage := Some (Num 80) |};
      {| m_id := 2; material_name := "Pine"; wasting_percentage := None |} ];
  products_types :=
    [ {| pt_id := 1; type_name := "Chair"; type_ratio := Some (Num 150) |} ];
  workshops :=
    [ {| w_id := 1; w_name := "Sawing"; w_type := None |};
      {| w_id := 2; w_name := "Assembly"; w_type := None |} ];
  products :=
    [ {| p_id := 1; product_name := "Stool"; material_id := 1; type_id := 1;
         min_price := Some (Num 1999); article := Some "S-1" |};
      {| p_id := 2; product_name := "Bench"; material_id := 2; type_id := 1;
         min_price := Some (Num 4500); article := Some "B-1" |} ];
  products_workshop :=
    [ {| pw_id := 1; product_id := 1; workshop_id := 1; production_time := Some (Num 250) |};
      {| pw_id := 2; product_id := 1; workshop_id := 2; production_time := Some (Num 350) |} ]
|}.

(** The sample database on an idle connection, with a fault schedule. *)
Definition sample_world (fs : list bool) : World := {|
  db := sample_tables;
  products_id_seq := 2;
  products_workshop_id_seq := 2;
  open_tx := None;
  faults := fs
|}.

(** The request of the scenario in the specification: workshop 1 twice. *)
Definition widget : @CreateProductWithWorkshopsInput decimal_platform :=
  @Build_CreateProductWithWorkshopsInput decimal_platform
    "Widget" 1 1 (999 # 100)%Q "W-1"
    [ @Build_WorkshopInput decimal_platform 1 2%Q;
      @Build_WorkshopInput decimal_platform 1 3%Q ].

(** The same product with two different workshops. *)
Definition gadget : @CreateProductWithWorkshopsInput decimal_platform :=
  @Build_CreateProductWithWorkshopsInput decimal_platform
    "Gadget" 1 1 (999 # 100)%Q "G-1"
    [ @Build_WorkshopInput decimal_platform 1 2%Q;
      @Build_WorkshopInput decimal_platform 2 3%Q ].

Definition shelf : @CreateProductInput decimal_platform :=
  @Build_CreateProductInput decimal_platform "Shelf" 2 1 (25 # 2)%Q "SH-1".

(** A request whose route bound the parameter [id]. *)
Definition request_with_id (id : string) : @gin_request decimal_platform := {|
  params := [("id", id)];
  json_product := None;
  json_product_with_workshops := None
|}.

Definition request_with_product (input : @CreateProductInput decimal_platform)
    : @gin_request decimal_platform := {|
  params := [];
  json_product := Some input;
  json_product_with_workshops := None
|}.

Definition request_with_workshops
    (input : @CreateProductWithWorkshopsInput decimal_platform)
    : @gin_request decimal_platform := {|
  params := [];
  json_product := None;
  json_product_with_workshops := Some input
|}.

(** The product 1 of the sample database as the aggregated read returns it. *)
Definition stool_as_read : @ProductWithTime decimal_platform :=
  @Build_ProductWithTime decimal_platform
    1 "Stool" "Oak" "Chair" (1999 # 100)%Q "S-1" 6%Q.

(** Columns: type, product, article, price, material. *)
Definition sample_workbook : list (list string) :=
  [ [ "Type"; "Name"; "Article"; "Price"; "Material" ];
    [ "chair"; "Armchair"; "A-1"; "12,50"; " OAK " ];
    [ "Chair"; "Broken"; "X-1"; "10" ];
    [ "Chair"; "Free"; "F-1"; "  "; "pine" ];
    [ "Chair"; "Ghost"; "G-1"; "5"; "Marble" ];
    [ "Chair"; "Odd"; "O-1"; "12;50"; "Oak" ] ].

(** ** Properties *)

Section Properties.
Context `{Platform}.

Ltac run := unfold mbind, mret, M_bind, M_ret in *; simpl in *.

Lemma delete_outcome_zero (result : CommandTag) (err : option error) :
  RowsAffected result = 0 → delete_outcome result err = Some ErrNothingDeleted.
Proof. intros Hz. unfold delete_outcome. by rewrite decide_True. Qed.

Lemma DeleteById_unfold (product_id : Z) (w : World) :
  DeleteById product_id w =
    (delete_outcome (pool_Exec_delete product_id w).1.1 (pool_Exec_delete product_id w).1.2,
     (pool_Exec_delete product_id w).2).
Proof.
  unfold DeleteById. run.
  destruct (pool_Exec_delete product_id w) as [[result err] w']. reflexivity.
Qed.

(** C2: whenever the delete statement reports zero affected rows,
    [DeleteById] returns the nothing-deleted error; the row count is tested
    before the error value of the same call, so the outcome is the same when the
    call also returned an error. *)
Theorem DeleteById_zero_rows_first (product_id : Z) (w w' : World)
    (result : CommandTag) (err : option error) :
  pool_Exec_delete product_id w = ((result, err), w') →
  RowsAffected result = 0 →
  DeleteById product_id w = (Some ErrNothingDeleted, w')
  ∧ delete_outcome result err = Some ErrNothingDeleted
  ∧ (∀ e, delete_outcome result (Some e) = Some ErrNothingDeleted).
Proof.
  intros Hexec Hz. rewrite DeleteById_unfold, Hexec. cbn.
  rewrite delete_outcome_zero by done.
  split; [done|]. split; [done|]. intros e. by apply delete_outcome_zero.
Qed.

(** *** Reading statements leave the rows alone *)

Lemma set_db_same (w : World) : set_db (db w) w = ((), w).
Proof. by destruct w. Qed.

Lemma round_trip_db (w : World) : db (round_trip w).2 = db w.
Proof. reflexivity. Qed.

Lemma round_trip_open_tx (w : World) : open_tx (round_trip w).2 = open_tx w.
Proof. reflexivity. Qed.

Lemma autocommit_fails {A} (stmt : Tables → M (result (A * Tables))) (w : World) :
  next_fails w = true →
  autocommit stmt w = (Err (ErrPg ConnFailure), (round_trip w).2).
Proof. intros Hf. unfold autocommit. run. rewrite Hf. done. Qed.

(** A query is a statement that computes its answer from the rows. *)
Lemma autocommit_query {A} (q : Tables → result A) (w : World) :
  autocommit (λ T, mret (match q T with Err e => Err e | Ok a => Ok (a, T) end)) w =
    (if next_fails w then Err (ErrPg ConnFailure) else q (db w), (round_trip w).2).
Proof.
  unfold autocommit. run. destruct (next_fails w); simpl; [done|].
  by destruct (q (db w)).
Qed.

Lemma GetProductByID_unfold (id : Z) (w : World) :
  GetProductByID id w =
    (if next_fails w then Err (ErrPg ConnFailure)
     else match query_product_by_id (db w) id with
          | [] => Ok None
          | row :: _ =>
              match Scan_product row with
              | Err err => Err err
              | Ok p => Ok (Some p)
              end
          end,
     (round_trip w).2).
Proof.
  unfold GetProductByID, autocommit. run.
  destruct (next_fails w); simpl; [done|].
  destruct (query_product_by_id (db w) id) as [|row rows]; simpl; [done|].
  unfold Scan_product.
  by destruct (s_min_price row), (s_article row).
Qed.

Lemma GetProductByID_world (id : Z) (w : World) :
  (GetProductByID id w).2 = (round_trip w).2.
Proof. by rewrite GetProductByID_unfold. Qed.

Lemma from_joins_product (T : Tables) (j : joined_row) :
  j ∈ from_joins T → j_p j ∈ products T.
Proof.
  unfold from_joins. rewrite list_elem_of_bind. intros (p & Hj & Hp).
  unfold joins_of_product in Hj.
  apply list_elem_of_bind in Hj as (m & Hj & _).
  apply list_elem_of_bind in Hj as (pt & Hj & _).
  unfold left_join_pw in Hj.
  destruct (filter _ (products_workshop T)) as [|pw pws].
  - apply list_elem_of_singleton in Hj. by subst j.
  - apply list_elem_of_fmap in Hj as (pw' & -> & _). done.
Qed.

Lemma query_product_by_id_absent (T : Tables) (id : Z) :
  (∀ p, p ∈ products T → p_id p ≠ id) → query_product_by_id T id = [].
Proof.
  intros Habs. unfold query_product_by_id.
  assert (filter (λ j, p_id (j_p j) = id) (from_joins T) = []) as ->; [|done].
  apply elem_of_nil_inv. intros j [Hid Hj]%list_elem_of_filter.
  by apply (Habs (j_p j)); [apply from_joins_product|].
Qed.

(** C5: the point lookup tells an absent product from a failed query.  For
    a request whose id parses to [id]: when the statement runs and no product
    has this id, [GetProductByID] returns nil without an error and the handler
    answers 404; when the round trip fails it returns an error; every error
    it returns is answered with 500, and every nil result with 404. *)
Theorem GetProductByID_not_found_is_not_an_error (c : gin_request) (id : Z) (w : World) :
  Sscanf_d (Param c "id") = Some id →
  (next_fails w = false → (∀ p, p ∈ products (db w) → p_id p ≠ id) →
     GetProductByID id w = (Ok None, (round_trip w).2)
     ∧ GetProductByIDHandler c w =
         ([ {| status := 404; body := JError MsgProductNotFound |} ], (round_trip w).2))
  ∧ (next_fails w = true →
     GetProductByID id w = (Err (ErrPg ConnFailure), (round_trip w).2))
  ∧ (∀ err w', GetProductByID id w = (Err err, w') →
     GetProductByIDHandler c w =
       ([ {| status := 500; body := JError MsgProductUnavailable |} ], w'))
  ∧ (∀ w', GetProductByID id w = (Ok None, w') →
     GetProductByIDHandler c w =
       ([ {| status := 404; body := JError MsgProductNotFound |} ], w')).
Proof.
  intros Hid.
  assert (∀ r w', GetProductByID id w = (r, w') →
    GetProductByIDHandler c w =
      (match r with
       | Err _ => [ {| status := 500; body := JError MsgProductUnavailable |} ]
       | Ok None => [ {| status := 404; body := JError MsgProductNotFound |} ]
       | Ok (Some product) => [ {| status := 200; body := JProduct (Some product) |} ]
       end, w')) as Hh.
  { intros r w' Hr. unfold GetProductByIDHandler. rewrite Hid.
    unfold mbind, M_bind. rewrite Hr. by destruct r as [[?|]|]. }
  split; [|split; [|split]].
  - intros Hf Habs.
    assert (GetProductByID id w = (Ok None, (round_trip w).2)) as Hg.
    { rewrite GetProductByID_unfold, Hf. by rewrite query_product_by_id_absent. }
    split; [done|]. by rewrite (Hh _ _ Hg).
  - intros Hf. by rewrite GetProductByID_unfold, Hf.
  - intros err w' Hg. by rewrite (Hh _ _ Hg).
  - intros w' Hg. by rewrite (Hh _ _ Hg).
Qed.

(** *** The delete handler of [main.go] *)

Lemma Server_DeleteById_bad_id (c : gin_request) (w : World) :
  Sscanf_d (Param c "id") = None →
  Server_DeleteById c w = ([ {| status := 400; body := JError MsgBadId |} ], w).
Proof. intros Hid. unfold Server_DeleteById. by rewrite Hid. Qed.

Lemma Server_DeleteById_parsed (c : gin_request) (id : Z) (w : World) :
  Sscanf_d (Param c "id") = Some id →
  Server_DeleteById c w =
    (match (DeleteById id w).1 with
     | Some _ => [ {| status := 502; body := JError MsgDeleteFailed |} ]
     | None => [ {| status := 200; body := JMessage MsgDeleted |} ]
     end, (DeleteById id w).2).
Proof.
  intros Hid. unfold Server_DeleteById. rewrite Hid.
  unfold mbind, M_bind. by destruct (DeleteById id w) as [[e|] w'].
Qed.

(** In [main.go] every request gets exactly one body. *)
Lemma Server_DeleteById_one_response (c : gin_request) (w : World) :
  length (Server_DeleteById c w).1 = 1%nat.
Proof.
  destruct (Sscanf_d (Param c "id")) as [id|] eqn:Hid.
  - rewrite (Server_DeleteById_parsed _ _ _ Hid). by destruct (DeleteById id w).1.
  - by rewrite Server_DeleteById_bad_id.
Qed.

Lemma routes_delete :
  filter (λ r, r_method r = "DELETE") routes =
    [ {| r_method := "DELETE"; r_path := "/api/products/:id"; r_handler := hDeleteById |} ].
Proof. reflexivity. Qed.

(** *** Statements inside a transaction *)

Lemma pool_Begin_inv (w w' : World) (r : result unit) :
  pool_Begin w = (r, w') →
  db w' = db w
  ∧ (r = Ok () → open_tx w' = Some (TxOpen (db w)))
  ∧ (∀ e, r = Err e → open_tx w' = open_tx w).
Proof.
  unfold pool_Begin. run. destruct (next_fails w); simpl; intros [= <- <-]; done.
Qed.

Lemma tx_Rollback_inv (w : World) :
  db (tx_Rollback w).2 = db w ∧ open_tx (tx_Rollback w).2 = None.
Proof.
  unfold tx_Rollback. run. destruct (open_tx w) eqn:Htx; simpl; by rewrite ?Htx.
Qed.

Lemma tx_Commit_inv (w w' : World) (r : result unit) :
  tx_Commit w = (r, w') →
  open_tx w' = None
  ∧ (r = Ok () → ∃ work, open_tx w = Some (TxOpen work) ∧ db w' = work)
  ∧ (∀ e, r = Err e → db w' = db w).
Proof.
  unfold tx_Commit. run. destruct (open_tx w) as [st|] eqn:Htx; simpl.
  - destruct (next_fails w); simpl.
    + intros [= <- <-]. simpl. split; [done|]. split; [intros [=]|done].
    + destruct st as [work|]; simpl; intros [= <- <-]; simpl.
      * split; [done|]. split; [eauto|intros e [=]].
      * split; [done|]. split; [intros [=]|done].
  - intros [= <- <-]. split; [done|]. split; [intros [=]|done].
Qed.

Lemma insert_products_inv (T T' : Tables) (id : Z) (name : string) (mid tid : Z)
    (price : numeric) (art : string) :
  insert_products T id name mid tid price art = Ok T' →
  same_reference T T'
  ∧ products T' = products T ++
      [ {| p_id := id; product_name := name; material_id := mid; type_id := tid;
           min_price := Some price; article := Some art |} ]
  ∧ products_workshop T' = products_workshop T
  ∧ (id ∉ p_id <$> products T)
  ∧ mid ∈ m_id <$> materials T
  ∧ tid ∈ pt_id <$> products_types T.
Proof.
  unfold insert_products.
  destruct (bool_decide (id ∈ _)) eqn:Hpk; [done|].
  destruct (bool_decide (mid ∈ _)) eqn:Hm; simpl; [|done].
  destruct (bool_decide (tid ∈ _)) eqn:Ht; simpl; [|done].
  intros [= <-]. apply bool_decide_eq_false in Hpk.
  apply bool_decide_eq_true in Hm, Ht. by repeat split.
Qed.

Lemma insert_products_workshop_inv (T T' : Tables) (id pid wid : Z) (time : numeric) :
  insert_products_workshop T id pid wid time = Ok T' →
  same_reference T T'
  ∧ products T' = products T
  ∧ products_workshop T' = products_workshop T ++
      [ {| pw_id := id; product_id := pid; workshop_id := wid;
           production_time := Some time |} ]
  ∧ ((pid, wid) ∉ (λ r, (product_id r, workshop_id r)) <$> products_workshop T)
  ∧ wid ∈ w_id <$> workshops T.
Proof.
  unfold insert_products_workshop.
  destruct (bool_decide (id ∈ _)) eqn:Hpk; [done|].
  destruct (bool_decide ((pid, wid) ∈ _)) eqn:Hu; [done|].
  destruct (bool_decide (pid ∈ _)) eqn:Hp; simpl; [|done].
  destruct (bool_decide (wid ∈ _)) eqn:Hw; simpl; [|done].
  intros [= <-]. apply bool_decide_eq_false in Hu.
  apply bool_decide_eq_true in Hw. by repeat split.
Qed.

Lemma in_tx_inv {A} (stmt : Tables → M (result (A * Tables))) (w w' : World)
    (r : result A) :
  (∀ T w0, db (stmt T w0).2 = db w0 ∧ open_tx (stmt T w0).2 = open_tx w0) →
  in_tx stmt w = (r, w') →
  db w' = db w
  ∧ (∀ a, r = Ok a → ∃ work work' w0,
       open_tx w = Some (TxOpen work) ∧ open_tx w' = Some (TxOpen work')
       ∧ (stmt work w0).1 = Ok (a, work')).
Proof.
  intros Hstmt. unfold in_tx. run.
  destruct (open_tx w) as [[work|]|] eqn:Htx; simpl;
    [|intros [= <- <-]; by split..].
  destruct (next_fails w); simpl; [intros [= <- <-]; by split|].
  match goal with |- context [stmt work ?w1] =>
    pose proof (Hstmt work w1) as [Hdb _];
    destruct (stmt work w1) as [[[a work']|e] w2] eqn:Hs end; simpl in *.
  - intros [= <- <-]. simpl. split; [done|].
    intros a' [= <-]. eexists work, work', _. by rewrite Hs.
  - intros [= <- <-]. by split.
Qed.

Lemma stmt_insert_product_frame (name : string) (mid tid : Z) (price : float64)
    (art : string) (T : Tables) (w : World) :
  db (stmt_insert_product name mid tid price art T w).2 = db w
  ∧ open_tx (stmt_insert_product name mid tid price art T w).2 = open_tx w.
Proof.
  unfold stmt_insert_product. run.
  destruct (numeric_of_float64 price); simpl; [|done].
  by destruct (insert_products _ _ _ _ _ _ _).
Qed.

Lemma stmt_insert_link_frame (pid wid : Z) (time : float64) (T : Tables) (w : World) :
  db (stmt_insert_link pid wid time T w).2 = db w
  ∧ open_tx (stmt_insert_link pid wid time T w).2 = open_tx w.
Proof.
  unfold stmt_insert_link. run.
  destruct (numeric_of_float64 time); simpl; [|done].
  by destruct (insert_products_workshop _ _ _ _ _).
Qed.

Lemma stmt_insert_product_ok (name : string) (mid tid : Z) (price : float64)
    (art : string) (T T' : Tables) (w : World) (id : Z) :
  (stmt_insert_product name mid tid price art T w).1 = Ok (id, T') →
  ∃ p, same_reference T T'
    ∧ products T' = products T ++ [p]
    ∧ products_workshop T' = products_workshop T
    ∧ p_id p = id ∧ product_name p = name ∧ material_id p = mid ∧ type_id p = tid
    ∧ min_price p = numeric_of_float64 price ∧ article p = Some art.
Proof.
  unfold stmt_insert_product. run.
  destruct (numeric_of_float64 price) as [price'|]; simpl; [|done].
  destruct (insert_products _ _ _ _ _ _ _) as [T1|] eqn:Hi; simpl; [|done].
  intros [= <- <-]. apply insert_products_inv in Hi as (Href & Hp & Hpw & _).
  eexists. repeat split; try apply Href; try done.
Qed.

Lemma stmt_insert_link_ok (pid wid : Z) (time : float64) (T T' : Tables) (w : World) :
  (stmt_insert_link pid wid time T w).1 = Ok ((), T') →
  ∃ l, same_reference T T'
    ∧ products T' = products T
    ∧ products_workshop T' = products_workshop T ++ [l]
    ∧ product_id l = pid ∧ workshop_id l = wid
    ∧ production_time l = numeric_of_float64 time.
Proof.
  unfold stmt_insert_link. run.
  destruct (numeric_of_float64 time) as [time'|]; simpl; [|done].
  destruct (insert_products_workshop _ _ _ _ _) as [T1|] eqn:Hi; simpl; [|done].
  intros [= <-]. apply insert_products_workshop_inv in Hi as (Href & Hp & Hpw & _).
  eexists. repeat split; try apply Href; try done.
Qed.

Lemma same_reference_refl (T : Tables) : same_reference T T.
Proof. by repeat split. Qed.

Lemma same_reference_trans (T1 T2 T3 : Tables) :
  same_reference T1 T2 → same_reference T2 T3 → same_reference T1 T3.
Proof. intros (?&?&?) (?&?&?). repeat split; congruence. Qed.

(** The loop over the pairs: the committed rows are not touched, and when
    every insert succeeds the working state has gained one link per pair. *)
Lemma add_workshops_inv (productID : Z) (ws : list WorkshopInput) :
  ∀ (w w' : World) (r : result unit),
    add_workshops productID ws w = (r, w') →
    db w' = db w
    ∧ (r = Ok () → ∀ work, open_tx w = Some (TxOpen work) →
         ∃ work' links,
           open_tx w' = Some (TxOpen work')
           ∧ same_reference work work'
           ∧ products work' = products work
           ∧ products_workshop work' = products_workshop work ++ links
           ∧ Forall2 (link_created productID) ws links)
    ∧ (∀ e, r = Err e → ∃ k cause, e = ErrAddWorkshop k cause).
Proof.
  induction ws as [|workshop rest IH]; intros w w' r; simpl.
  - run. intros [= <- <-]. split; [done|]. split; [|intros e [=]].
    intros _ work Htx. exists work, []. rewrite app_nil_r.
    split; [done|]. split; [apply same_reference_refl|]. by repeat split.
  - unfold mbind, M_bind.
    destruct (in_tx _ w) as [r1 w1] eqn:Hin.
    apply in_tx_inv in Hin as [Hdb1 Hok1]; [|intros; apply stmt_insert_link_frame].
    destruct r1 as [[]|e1]; simpl.
    + intros Hrest. apply IH in Hrest as (Hdb2 & Hok2 & Herr2).
      split; [congruence|]. split; [|done].
      intros -> work Htx.
      destruct (Hok1 () eq_refl) as (work0 & work1 & w0 & Htx0 & Htx1 & Hs).
      assert (work0 = work) as -> by congruence.
      apply stmt_insert_link_ok in Hs as (l & Href1 & Hp1 & Hpw1 & Hl).
      destruct (Hok2 eq_refl work1 Htx1) as (work2 & links & Htx2 & Href2 & Hp2 & Hpw2 & Hall).
      exists work2, (l :: links). split; [done|].
      split; [by eapply same_reference_trans|].
      split; [congruence|].
      split; [by rewrite Hpw2, Hpw1, <- app_assoc|].
      by constructor.
    + intros [= <- <-]. split; [done|]. split; [intros [=]|].
      intros e [= <-]. eauto.
Qed.

(** The two ways [CreateProductWithWorkshops] can end. *)
Lemma CreateProductWithWorkshops_cases (input : CreateProductWithWorkshopsInput)
    (w w' : World) (r : result Z) :
  open_tx w = None →
  CreateProductWithWorkshops input w = (r, w') →
  open_tx w' = None
  ∧ ((∃ productID p links,
        r = Ok productID
        ∧ same_reference (db w) (db w')
        ∧ products (db w') = products (db w) ++ [p]
        ∧ product_created productID input p
        ∧ products_workshop (db w') = products_workshop (db w) ++ links
        ∧ length links = length (Workshops input)
        ∧ Forall2 (link_created productID) (Workshops input) links)
     ∨ (∃ e, r = Err e ∧ creation_failure e ∧ db w' = db w)).
Proof.
  intros Hidle. unfold CreateProductWithWorkshops, mbind, M_bind.
  destruct (pool_Begin w) as [r0 w0] eqn:Hb.
  apply pool_Begin_inv in Hb as (Hdb0 & Hok0 & Herr0).
  destruct r0 as [[]|e0]; simpl.
  2:{ intros [= <- <-]. split; [by rewrite (Herr0 e0)|].
      right. eexists. split; [done|]. split; [left; eauto|done]. }
  specialize (Hok0 eq_refl).
  destruct (create_in_tx input w0) as [res w1] eqn:Hc.
  pose proof (tx_Rollback_inv w1) as [Hdb_rb Htx_rb].
  destruct (tx_Rollback w1) as [rr w2]; simpl in *.
  unfold mret, M_ret. intros [= <- <-]. split; [done|]. rewrite Hdb_rb.
  revert Hc. unfold create_in_tx, mbind, M_bind.
  destruct (in_tx _ w0) as [r1 wa] eqn:Hin.
  apply in_tx_inv in Hin as [Hdba Hoka]; [|intros; apply stmt_insert_product_frame].
  destruct r1 as [productID|e1]; simpl.
  2:{ unfold mret, M_ret. intros [= <- <-]. right. eexists. split; [done|].
      split; [right; left; eauto|congruence]. }
  destruct (Hoka productID eq_refl) as (work0 & worka & wx & Htx0 & Htxa & Hs).
  assert (work0 = db w) as -> by congruence.
  apply stmt_insert_product_ok in Hs as (p & Hrefa & Hpa & Hpwa & Hp).
  destruct (add_workshops productID (Workshops input) wa) as [rb wb] eqn:Hadd.
  assert ((if decide (0 < length (Workshops input))%nat
           then add_workshops productID (Workshops input)
           else mret (Ok ())) wa = (rb, wb)) as ->.
  { destruct (decide _) as [Hlen|Hlen]; [done|].
    destruct (Workshops input); simpl in *; [done|lia]. }
  apply add_workshops_inv in Hadd as (Hdbb & Hokb & Herrb).
  destruct rb as [[]|eb]; simpl.
  2:{ unfold mret, M_ret. intros [= <- <-]. right. eexists. split; [done|].
      split; [|congruence]. destruct (Herrb eb eq_refl) as (k & cause & ->).
      right; right; left; eauto. }
  destruct (Hokb eq_refl worka Htxa) as (workb & links & Htxb & Hrefb & Hpb & Hpwb & Hall).
  destruct (tx_Commit wb) as [rc wc] eqn:Hcm.
  apply tx_Commit_inv in Hcm as (_ & Hokc & Herrc).
  destruct rc as [[]|ec]; simpl; unfold mret, M_ret; intros [= <- <-].
  - left. destruct (Hokc eq_refl) as (work & Htx & Hdbc).
    assert (work = workb) as -> by congruence.
    exists productID, p, links. rewrite Hdbc.
    split; [done|]. split; [by eapply same_reference_trans|].
    split; [congruence|]. split; [done|].
    split; [by rewrite Hpwb, Hpwa|].
    split; [symmetry; by eapply Forall2_length|done].
  - right. eexists. split; [done|]. split; [|rewrite (Herrc ec); congruence].
    right; right; right; eauto.
Qed.

(** C1: [CreateProductWithWorkshops] is atomic.  Started on an idle
    connection, it leaves no transaction open, and either it returns the new
    identifier and the committed rows have gained exactly one product, built
    from the input, and exactly one link per supplied pair, in order, or it
    returns an error naming the failed step (begin, product insert, link insert
    or commit) and the committed rows are what they were. *)
Theorem CreateProductWithWorkshops_atomic (input : CreateProductWithWorkshopsInput)
    (w w' : World) (r : result Z) :
  open_tx w = None →
  CreateProductWithWorkshops input w = (r, w') →
  open_tx w' = None
  ∧ ((∃ productID p links,
        r = Ok productID
        ∧ same_reference (db w) (db w')
        ∧ products (db w') = products (db w) ++ [p]
        ∧ product_created productID input p
        ∧ products_workshop (db w') = products_workshop (db w) ++ links
        ∧ length links = length (Workshops input)
        ∧ Forall2 (link_created productID) (Workshops input) links)
     ∨ (∃ e, r = Err e ∧ creation_failure e ∧ db w' = db w)).
Proof. apply CreateProductWithWorkshops_cases. Qed.

(** *** Autocommit statements *)

Lemma autocommit_inv {A} (stmt : Tables → M (result (A * Tables))) (w w' : World)
    (r : result A) :
  (∀ T w0, db (stmt T w0).2 = db w0 ∧ open_tx (stmt T w0).2 = open_tx w0) →
  autocommit stmt w = (r, w') →
  open_tx w' = open_tx w
  ∧ (∀ a, r = Ok a → ∃ w0, (stmt (db w) w0).1 = Ok (a, db w'))
  ∧ (∀ e, r = Err e → db w' = db w).
Proof.
  intros Hstmt. unfold autocommit. run.
  destruct (next_fails w); simpl.
  { intros [= <- <-]. split; [done|]. split; [intros a [=]|done]. }
  match goal with |- context [stmt (db w) ?w1] =>
    pose proof (Hstmt (db w) w1) as [Hdb Htx];
    destruct (stmt (db w) w1) as [[[a T']|e] w2] eqn:Hs end; simpl in *.
  - intros [= <- <-]. simpl. split; [done|]. split; [|intros e [=]].
    intros a' [= <-]. eexists. by rewrite Hs.
  - intros [= <- <-]. split; [done|]. split; [intros a [=]|done].
Qed.

Lemma GetProductByID_db (id : Z) (w w' : World) (r : result (option ProductWithTime)) :
  GetProductByID id w = (r, w') → db w' = db w.
Proof.
  intros Hg. pose proof (GetProductByID_world id w) as Hw.
  rewrite Hg in Hw. simpl in Hw. by subst w'.
Qed.

Lemma CreateProduct_ok (input : CreateProductInput) (w w' : World) (id : Z) :
  CreateProduct input w = (Ok id, w') →
  ∃ p, products (db w') = products (db w) ++ [p]
    ∧ products_workshop (db w') = products_workshop (db w)
    ∧ p_id p = id ∧ product_name p = cp_ProductName input
    ∧ min_price p = numeric_of_float64 (cp_MinPrice input).
Proof.
  intros Hc. apply autocommit_inv in Hc as (_ & Hok & _);
    [|intros; apply stmt_insert_product_frame].
  destruct (Hok id eq_refl) as [w0 Hs].
  apply stmt_insert_product_ok in Hs as (p & _ & Hp & Hpw & Hid & Hname & _ & _ & Hprice & _).
  by exists p.
Qed.

(** C9: a 500 answer of the two creating handlers does not mean that
    nothing was created.  When the insert succeeds and the read-back of the
    new product fails, [CreateProductHandler] answers 500 although the product
    row is committed, and [CreateProductWithWorkshopsHandler] answers 500
    although the product row and one link per supplied pair are committed. *)
Theorem created_rows_survive_failed_read_back
    (c : gin_request) (input : CreateProductInput) (w w1 w2 : World) (id : Z) (err : error)
    (ct : gin_request) (inputt : CreateProductWithWorkshopsInput) (wt wt1 wt2 : World)
    (idt : Z) (errt : error) :
  json_product c = Some input →
  CreateProduct input w = (Ok id, w1) →
  GetProductByID id w1 = (Err err, w2) →
  json_product_with_workshops ct = Some inputt →
  open_tx wt = None →
  CreateProductWithWorkshops inputt wt = (Ok idt, wt1) →
  GetProductByID idt wt1 = (Err errt, wt2) →
  (CreateProductHandler c w =
     ([ {| status := 500; body := JError MsgCreatedButNotRead |} ], w2)
   ∧ ∃ p, products (db w2) = products (db w) ++ [p]
       ∧ p_id p = id ∧ product_name p = cp_ProductName input)
  ∧ (CreateProductWithWorkshopsHandler ct wt =
       ([ {| status := 500; body := JError MsgCreatedButNotRead |} ], wt2)
     ∧ ∃ p links, products (db wt2) = products (db wt) ++ [p]
         ∧ product_created idt inputt p
         ∧ products_workshop (db wt2) = products_workshop (db wt) ++ links
         ∧ Forall2 (link_created idt) (Workshops inputt) links).
Proof.
  intros Hbody Hcreate Hread Hbodyt Hidle Hcreatet Hreadt. split.
  - split.
    + unfold CreateProductHandler. rewrite Hbody. unfold mbind, M_bind.
      by rewrite Hcreate, Hread.
    + apply GetProductByID_db in Hread.
      apply CreateProduct_ok in Hcreate as (p & Hp & _ & Hid & Hname & _).
      exists p. by rewrite Hread.
  - split.
    + unfold CreateProductWithWorkshopsHandler. rewrite Hbodyt. unfold mbind, M_bind.
      by rewrite Hcreatet, Hreadt.
    + apply GetProductByID_db in Hreadt.
      apply CreateProductWithWorkshops_cases in Hcreatet as [_ Hat]; [|done].
      destruct Hat as [(id' & p & links & [= <-] & _ & Hp & Hpc & Hpw & _ & Hall)
                      |(e & [=] & _)].
      exists p, links. by rewrite Hreadt.
Qed.

(** *** Name resolution of the importer *)

Lemma getMaterialID_unfold (name : string) (w : World) :
  getMaterialID name w =
    (if next_fails w then Err (ErrMaterialLookup (ErrPg ConnFailure))
     else match filter (λ m, LOWER (material_name m) = LOWER name) (materials (db w)) with
          | [] => Err (ErrMaterialNotFound name)
          | m :: _ => Ok (m_id m)
          end,
     (round_trip w).2).
Proof.
  unfold getMaterialID, autocommit. run.
  destruct (next_fails w); simpl; [done|].
  by destruct (filter _ (materials (db w))).
Qed.

Lemma getTypeID_unfold (name : string) (w : World) :
  getTypeID name w =
    (if next_fails w then Err (ErrTypeLookup (ErrPg ConnFailure))
     else match filter (λ pt, LOWER (type_name pt) = LOWER name) (products_types (db w)) with
          | [] => Err (ErrTypeNotFound name)
          | pt :: _ => Ok (pt_id pt)
          end,
     (round_trip w).2).
Proof.
  unfold getTypeID, autocommit. run.
  destruct (next_fails w); simpl; [done|].
  by destruct (filter _ (products_types (db w))).
Qed.

Lemma filter_head_cases {A} (P : A → Prop) `{!∀ x, Decision (P x)} (l : list A) :
  (filter P l = [] ∧ ∀ x, x ∈ l → ¬ P x)
  ∨ (∃ x l', filter P l = x :: l' ∧ x ∈ l ∧ P x).
Proof.
  destruct (filter P l) as [|x l'] eqn:Hf.
  - left. split; [done|]. intros x Hx HP.
    by eapply filter_nil_not_elem_of.
  - right. exists x, l'. split; [done|].
    assert (x ∈ filter P l) as [HP Hx]%list_elem_of_filter by (rewrite Hf; left).
    done.
Qed.

(** C8: names are resolved by exact match up to letter case.  When the
    lookup statement runs, [getMaterialID] succeeds exactly when some stored
    material name has the same [LOWER] image as the input, the identifier it
    returns belongs to such a row, and otherwise it returns the not-found error
    carrying the name; [getTypeID] does the same on the type names. *)
Theorem name_lookup_is_exact_up_to_case (name : string) (w : World) :
  next_fails w = false →
  (is_ok (getMaterialID name w).1 = true ↔ ∃ m, material_matches (db w) name m)
  ∧ (∀ id, (getMaterialID name w).1 = Ok id →
       ∃ m, material_matches (db w) name m ∧ m_id m = id)
  ∧ ((¬ ∃ m, material_matches (db w) name m) →
       (getMaterialID name w).1 = Err (ErrMaterialNotFound name))
  ∧ (is_ok (getTypeID name w).1 = true ↔ ∃ pt, type_matches (db w) name pt)
  ∧ (∀ id, (getTypeID name w).1 = Ok id →
       ∃ pt, type_matches (db w) name pt ∧ pt_id pt = id)
  ∧ ((¬ ∃ pt, type_matches (db w) name pt) →
       (getTypeID name w).1 = Err (ErrTypeNotFound name)).
Proof.
  intros Hrun. rewrite getMaterialID_unfold, getTypeID_unfold, Hrun. simpl.
  unfold material_matches, type_matches.
  split; [|split; [|split; [|split; [|split]]]].
  - destruct (filter_head_cases (λ m, LOWER (material_name m) = LOWER name)
                (materials (db w))) as [[-> Hno]|(m & l' & -> & Hm & Heq)]; simpl.
    + split; [done|]. intros (m & Hm & Heq). by destruct (Hno m).
    + split; [eauto|done].
  - intros id.
    destruct (filter_head_cases (λ m, LOWER (material_name m) = LOWER name)
                (materials (db w))) as [[-> Hno]|(m & l' & -> & Hm & Heq)]; simpl.
    + done.
    + intros [= <-]. eauto.
  - intros Hnone.
    destruct (filter_head_cases (λ m, LOWER (material_name m) = LOWER name)
                (materials (db w))) as [[-> Hno]|(m & l' & -> & Hm & Heq)]; simpl.
    + done.
    + destruct Hnone. eauto.
  - destruct (filter_head_cases (λ pt, LOWER (type_name pt) = LOWER name)
                (products_types (db w))) as [[-> Hno]|(pt & l' & -> & Hm & Heq)]; simpl.
    + split; [done|]. intros (pt & Hm & Heq). by destruct (Hno pt).
    + split; [eauto|done].
  - intros id.
    destruct (filter_head_cases (λ pt, LOWER (type_name pt) = LOWER name)
                (products_types (db w))) as [[-> Hno]|(pt & l' & -> & Hm & Heq)]; simpl.
    + done.
    + intros [= <-]. eauto.
  - intros Hnone.
    destruct (filter_head_cases (λ pt, LOWER (type_name pt) = LOWER name)
                (products_types (db w))) as [[-> Hno]|(pt & l' & -> & Hm & Heq)]; simpl.
    + done.
    + destruct Hnone. eauto.
Qed.

(** *** The row loop of the importer *)

Lemma wrap64_small (z : Z) : 0 ≤ z < 2 ^ 63 → wrap64 z = z.
Proof.
  intros Hz. unfold wrap64.
  change (2 ^ 63) with 9223372036854775808 in *.
  change (2 ^ 64) with 18446744073709551616.
  rewrite Z.mod_small; lia.
Qed.

Lemma getMaterialID_db (name : string) (w w' : World) (r : result Z) :
  getMaterialID name w = (r, w') → db w' = db w.
Proof. rewrite getMaterialID_unfold. by intros [= _ <-]. Qed.

Lemma getTypeID_db (name : string) (w w' : World) (r : result Z) :
  getTypeID name w = (r, w') → db w' = db w.
Proof. rewrite getTypeID_unfold. by intros [= _ <-]. Qed.

(** A row is counted once: as a success, or as an error that leaves the
    stored rows alone. *)
Lemma import_row_cases (i : Z) (row : list string) (st : import_state) (w : World) :
  (∃ w', import_row i row st w = (count_success st, w'))
  ∨ (∃ f w', import_row i row st w = (count_error st (wrap64 (i + 1)) f, w')
       ∧ db w' = db w).
Proof.
  unfold import_row.
  destruct (decide _) as [Hshort|Hlong]; [right; by eexists _, _|].
  destruct (parseDecimal (cell row 3)) as [minPrice|e0]; [|right; by eexists _, _].
  unfold mbind, M_bind.
  destruct (getMaterialID _ w) as [[materialID|e1] w1] eqn:H1;
    apply getMaterialID_db in H1; simpl; [|right; by eexists _, _].
  destruct (getTypeID _ w1) as [[typeID|e2] w2] eqn:H2;
    apply getTypeID_db in H2; simpl; [|right; eexists _, _; split; [done|congruence]].
  destruct (autocommit _ w2) as [[id|e3] w3] eqn:H3; simpl.
  - left. by eexists.
  - right. eexists _, _. split; [done|].
    apply autocommit_inv in H3 as (_ & _ & Herr);
      [|intros; apply stmt_insert_product_frame].
    rewrite (Herr e3 eq_refl). congruence.
Qed.

Lemma import_rows_counts (rows : list (list string)) :
  ∀ (i : Z) (st : import_state) (w : World),
    i ≠ 0 → 0 ≤ i →
    0 ≤ successCount st → 0 ≤ errorCount st →
    successCount st + errorCount st + Z.of_nat (length rows) < 2 ^ 63 →
    let st' := (import_rows i rows st w).1 in
    successCount st' + errorCount st' =
      successCount st + errorCount st + Z.of_nat (length rows)
    ∧ 0 ≤ successCount st' ∧ 0 ≤ errorCount st'
    ∧ Z.of_nat (length (logged st')) - errorCount st' =
        Z.of_nat (length (logged st)) - errorCount st.
Proof.
  induction rows as [|row rest IH]; intros i st w Hi Hi0 Hs He Hbound; simpl.
  - run. lia.
  - rewrite decide_False by done. unfold mbind, M_bind.
    simpl length in Hbound. rewrite Nat2Z.inj_succ in Hbound.
    destruct (import_row_cases i row st w) as [(w1 & ->)|(f & w1 & -> & _)].
    + assert (wrap64 (successCount st + 1) = successCount st + 1) as Hw
        by (apply wrap64_small; lia).
      specialize (IH (i + 1) (count_success st) w1).
      unfold count_success in *. simpl in *. rewrite Hw in *.
      destruct IH as (IH1 & IH2 & IH3 & IH4); [lia..|].
      rewrite Nat2Z.inj_succ. lia.
    + assert (wrap64 (errorCount st + 1) = errorCount st + 1) as Hw
        by (apply wrap64_small; lia).
      specialize (IH (i + 1) (count_error st (wrap64 (i + 1)) f) w1).
      unfold count_error in *. simpl in *. rewrite Hw in *.
      destruct IH as (IH1 & IH2 & IH3 & IH4); [lia..|].
      rewrite length_app in IH4. simpl in IH4.
      rewrite Nat2Z.inj_succ. lia.
Qed.

(** The counters after the whole run. *)
Lemma import_main_counts (rows : list (list string)) (w : World) :
  Z.of_nat (length rows) < 2 ^ 63 →
  let st := (import_main rows w).1 in
  successCount st + errorCount st = Z.of_nat (length (tail rows))
  ∧ errorCount st = Z.of_nat (length (logged st))
  ∧ 0 ≤ successCount st ∧ 0 ≤ errorCount st.
Proof.
  intros Hbound. cbv zeta.
  destruct rows as [|header rest]; [simpl; done|].
  unfold import_main; simpl import_rows; simpl tail.
  simpl length in Hbound; rewrite Nat2Z.inj_succ in Hbound.
  pose proof (import_rows_counts rest (0 + 1)
    {| successCount := 0; errorCount := 0; logged := [] |} w) as Hc.
  simpl in Hc; destruct Hc as (H1 & H2 & H3 & H4); [lia..|]. simpl. lia.
Qed.

(** The outcome of the loop body for a row of at least five cells, step by
    step: each failing step ends the row with one counted error, and only a
    row that passes every step is counted as a success. *)
Lemma import_row_outcomes (i : Z) (row : list string) (st0 : import_state) (w0 : World) :
  (5 ≤ length row)%nat →
  (∀ err, parseDecimal (cell row 3) = Err err →
     import_row i row st0 w0 =
       (count_error st0 (wrap64 (i + 1)) (BadPrice (cell row 4) err), w0))
  ∧ (∀ minPrice, parseDecimal (cell row 3) = Ok minPrice →
       (∀ err w1, getMaterialID (TrimSpace (cell row 4)) w0 = (Err err, w1) →
          import_row i row st0 w0 =
            (count_error st0 (wrap64 (i + 1)) (BadLookup err), w1))
       ∧ (∀ materialID w1,
            getMaterialID (TrimSpace (cell row 4)) w0 = (Ok materialID, w1) →
            (∀ err w2, getTypeID (TrimSpace (cell row 0)) w1 = (Err err, w2) →
               import_row i row st0 w0 =
                 (count_error st0 (wrap64 (i + 1)) (BadLookup err), w2))
            ∧ (∀ typeID w2,
                 getTypeID (TrimSpace (cell row 0)) w1 = (Ok typeID, w2) →
                 (∀ err w3,
                    autocommit (stmt_insert_product (TrimSpace (cell row 1)) materialID
                                  typeID minPrice (TrimSpace (cell row 2))) w2 =
                      (Err err, w3) →
                    import_row i row st0 w0 =
                      (count_error st0 (wrap64 (i + 1)) (BadInsert err), w3))
                 ∧ (∀ id w3,
                      autocommit (stmt_insert_product (TrimSpace (cell row 1)) materialID
                                    typeID minPrice (TrimSpace (cell row 2))) w2 =
                        (Ok id, w3) →
                      import_row i row st0 w0 = (count_success st0, w3))))).
Proof.
  intros Hlen. unfold import_row. rewrite decide_False by lia.
  split; [by intros err ->|].
  intros minPrice ->. unfold mbind, M_bind.
  split; [by intros err w1 ->|].
  intros materialID w1 ->. split; [by intros err w2 ->|].
  intros typeID w2 ->. split; [by intros err w3 ->|by intros id w3 ->].
Qed.

(** A material name that no stored name matches ends the row with the
    not-found error, and so does such a type name. *)
Lemma import_row_unresolved (i : Z) (row : list string) (st0 : import_state)
    (w0 : World) (minPrice : float64) :
  (5 ≤ length row)%nat →
  parseDecimal (cell row 3) = Ok minPrice →
  next_fails w0 = false →
  ((¬ ∃ m, material_matches (db w0) (TrimSpace (cell row 4)) m) →
     import_row i row st0 w0 =
       (count_error st0 (wrap64 (i + 1))
          (BadLookup (ErrMaterialNotFound (TrimSpace (cell row 4)))),
        (round_trip w0).2))
  ∧ (∀ materialID w1,
       getMaterialID (TrimSpace (cell row 4)) w0 = (Ok materialID, w1) →
       next_fails w1 = false →
       (¬ ∃ pt, type_matches (db w1) (TrimSpace (cell row 0)) pt) →
       import_row i row st0 w0 =
         (count_error st0 (wrap64 (i + 1))
            (BadLookup (ErrTypeNotFound (TrimSpace (cell row 0)))),
          (round_trip w1).2)).
Proof.
  intros Hlen Hprice Hrun.
  destruct (import_row_outcomes i row st0 w0 Hlen) as [_ Hpriced].
  destruct (Hpriced minPrice Hprice) as [Hmat Hresolved]. split.
  - intros Hnone. apply Hmat. rewrite getMaterialID_unfold, Hrun.
    destruct (filter_head_cases
                (λ m, LOWER (material_name m) = LOWER (TrimSpace (cell row 4)))
                (materials (db w0))) as [[-> _]|(m & l' & _ & Hm & Heq)]; [done|].
    destruct Hnone. by exists m.
  - intros materialID w1 Hm Hrun1 Hnone.
    destruct (Hresolved materialID w1 Hm) as [Htyp _].
    apply Htyp. rewrite getTypeID_unfold, Hrun1.
    destruct (filter_head_cases
                (λ pt, LOWER (type_name pt) = LOWER (TrimSpace (cell row 0)))
                (products_types (db w1))) as [[-> _]|(pt & l' & _ & Hpt & Heq)]; [done|].
    destruct Hnone. by exists pt.
Qed.

(** C6: the importer is a best-effort batch.  The first row is never read
    as data.  Every later row is counted exactly once and the loop goes on to
    the next row: a row with fewer than five cells, a row whose price does not
    parse, a row whose material or type lookup fails (in particular when no
    stored name matches the cell), and a row whose insert fails are each
    counted as one error, with the failure logged; only a row that passes all
    of these steps is counted as a success; an error leaves the stored rows
    unchanged.  At the end the success and error counters add up to the number
    of rows after the header, and the error counter is the number of logged
    row failures. *)
Theorem importer_counts_every_row (rows : list (list string)) (w : World) :
  Z.of_nat (length rows) < 2 ^ 63 →
  let st := (import_main rows w).1 in
  successCount st + errorCount st = Z.of_nat (length (tail rows))
  ∧ errorCount st = Z.of_nat (length (logged st))
  ∧ 0 ≤ successCount st ∧ 0 ≤ errorCount st
  ∧ (∀ header, import_main (header :: tail rows) w = import_main ([] :: tail rows) w)
  ∧ (∀ i row st0 w0, (length row < 5)%nat →
       import_row i row st0 w0 = (count_error st0 (wrap64 (i + 1)) ShortRow, w0))
  ∧ (∀ i row st0 w0,
       (∃ w', import_row i row st0 w0 = (count_success st0, w'))
       ∨ (∃ f w', import_row i row st0 w0 = (count_error st0 (wrap64 (i + 1)) f, w')
            ∧ db w' = db w0))
  ∧ (∀ i row st0 w0, (5 ≤ length row)%nat →
       (∀ err, parseDecimal (cell row 3) = Err err →
          import_row i row st0 w0 =
            (count_error st0 (wrap64 (i + 1)) (BadPrice (cell row 4) err), w0))
       ∧ (∀ minPrice, parseDecimal (cell row 3) = Ok minPrice →
            (∀ err w1, getMaterialID (TrimSpace (cell row 4)) w0 = (Err err, w1) →
               import_row i row st0 w0 =
                 (count_error st0 (wrap64 (i + 1)) (BadLookup err), w1))
            ∧ (∀ materialID w1,
                 getMaterialID (TrimSpace (cell row 4)) w0 = (Ok materialID, w1) →
                 (∀ err w2, getTypeID (TrimSpace (cell row 0)) w1 = (Err err, w2) →
                    import_row i row st0 w0 =
                      (count_error st0 (wrap64 (i + 1)) (BadLookup err), w2))
                 ∧ (∀ typeID w2,
                      getTypeID (TrimSpace (cell row 0)) w1 = (Ok typeID, w2) →
                      (∀ err w3,
                         autocommit (stmt_insert_product (TrimSpace (cell row 1))
                                       materialID typeID minPrice
                                       (TrimSpace (cell row 2))) w2 = (Err err, w3) →
                         import_row i row st0 w0 =
                           (count_error st0 (wrap64 (i + 1)) (BadInsert err), w3))
                      ∧ (∀ id w3,
                           autocommit (stmt_insert_product (TrimSpace (cell row 1))
                                         materialID typeID minPrice
                                         (TrimSpace (cell row 2))) w2 = (Ok id, w3) →
                           import_row i row st0 w0 = (count_success st0, w3))))))
  ∧ (∀ i row st0 w0 minPrice, (5 ≤ length row)%nat →
       parseDecimal (cell row 3) = Ok minPrice →
       next_fails w0 = false →
       ((¬ ∃ m, material_matches (db w0) (TrimSpace (cell row 4)) m) →
          import_row i row st0 w0 =
            (count_error st0 (wrap64 (i + 1))
               (BadLookup (ErrMaterialNotFound (TrimSpace (cell row 4)))),
             (round_trip w0).2))
       ∧ (∀ materialID w1,
            getMaterialID (TrimSpace (cell row 4)) w0 = (Ok materialID, w1) →
            next_fails w1 = false →
            (¬ ∃ pt, type_matches (db w1) (TrimSpace (cell row 0)) pt) →
            import_row i row st0 w0 =
              (count_error st0 (wrap64 (i + 1))
                 (BadLookup (ErrTypeNotFound (TrimSpace (cell row 0)))),
               (round_trip w1).2))).
Proof.
  intros Hbound. pose proof (import_main_counts rows w Hbound) as Hcounts.
  cbv zeta in *. destruct Hcounts as (H1 & H2 & H3 & H4).
  split; [done|]. split; [done|]. split; [done|]. split; [done|].
  split; [intros header; reflexivity|].
  split; [intros i row st0 w0 Hshort; unfold import_row; by rewrite decide_True|].
  split; [intros; apply import_row_cases|].
  split; [intros i row st0 w0; apply import_row_outcomes|].
  intros i row st0 w0 minPrice. apply import_row_unresolved.
Qed.

(** *** Numeric normalization *)

Lemma ReplaceAll_normalizes (t : string) :
  ReplaceAll (ReplaceAll t "," ".") " " "" = comma_to_point (without_spaces t).
Proof.
  induction t as [|c t IH]; [done|]. simpl.
  destruct (Ascii.eqb c ",") eqn:Hcomma.
  - apply Ascii.eqb_eq in Hcomma as ->. simpl.
    change ("" +:+ ReplaceAll t "," ".") with (ReplaceAll t "," "."). by rewrite IH.
  - simpl. destruct (Ascii.eqb c " ") eqn:Hsp; simpl; [done|].
    by rewrite Hcomma, IH.
Qed.

Lemma ReplaceAll_blank (t : string) :
  without_spaces t = "" → ReplaceAll (ReplaceAll t "," ".") " " "" = "".
Proof. intros Hb. by rewrite ReplaceAll_normalizes, Hb. Qed.

Lemma parseDecimal_unfold (s : string) :
  parseDecimal s =
    let n := comma_to_point (without_spaces (TrimSpace s)) in
    if decide (n = "") then Ok float64_zero
    else match ParseFloat n with
         | Err err => Err (ErrInvalidNumber err)
         | Ok value => Ok value
         end.
Proof. unfold parseDecimal. by rewrite ReplaceAll_normalizes. Qed.

(** No comma and no space is left in what reaches [ParseFloat]. *)
Lemma normalized_has_no_comma_or_space (t : string) (c : ascii) :
  c ∈ list_ascii_of_string (ReplaceAll (ReplaceAll t "," ".") " " "") →
  c ≠ ","%char ∧ c ≠ " "%char.
Proof.
  rewrite ReplaceAll_normalizes.
  induction t as [|a t IH]; simpl; [by intros ?%elem_of_nil|].
  destruct (Ascii.eqb a " ") eqn:Hsp; [exact IH|].
  simpl. intros [->|Hc]%elem_of_cons; [|by apply IH].
  destruct (Ascii.eqb a ",") eqn:Hcomma; [done|].
  apply Ascii.eqb_neq in Hsp, Hcomma. done.
Qed.

(** C7: [parseDecimal] trims the cell, reads a comma as the decimal point
    and drops the spaces: it parses the string obtained from the trimmed input
    by removing every space and turning every comma into a point, so the cell
    "12,50" is parsed as "12.50" and yields exactly the value of 12.50 with no
    error, also when the cell carries blanks around or inside the number. *)
Theorem parseDecimal_comma_is_decimal_point (v : float64) :
  ParseFloat "12.50" = Ok v →
  parseDecimal "12,50" = Ok v
  ∧ parseDecimal (" 12,50" ++ bytes [9; 194; 160]%nat)%string = Ok v
  ∧ parseDecimal "1 2,5 0" = Ok v
  ∧ (∀ s, parseDecimal s =
       let n := comma_to_point (without_spaces (TrimSpace s)) in
       if decide (n = "") then Ok float64_zero
       else match ParseFloat n with
            | Err err => Err (ErrInvalidNumber err)
            | Ok value => Ok value
            end).
Proof.
  intros Hv. split; [|split; [|split]].
  - rewrite parseDecimal_unfold. vm_compute TrimSpace. simpl. by rewrite Hv.
  - rewrite parseDecimal_unfold. vm_compute TrimSpace. simpl. by rewrite Hv.
  - rewrite parseDecimal_unfold. vm_compute TrimSpace. simpl. by rewrite Hv.
  - apply parseDecimal_unfold.
Qed.

Lemma autocommit_insert_product_ok (name : string) (mid tid : Z) (price : float64)
    (art : string) (w w' : World) (id : Z) :
  autocommit (stmt_insert_product name mid tid price art) w = (Ok id, w') →
  ∃ p, products (db w') = products (db w) ++ [p]
    ∧ p_id p = id ∧ product_name p = name ∧ material_id p = mid ∧ type_id p = tid
    ∧ min_price p = numeric_of_float64 price ∧ article p = Some art.
Proof.
  intros Hc. apply autocommit_inv in Hc as (_ & Hok & _);
    [|intros; apply stmt_insert_product_frame].
  destruct (Hok id eq_refl) as [w0 Hs].
  apply stmt_insert_product_ok in Hs as (p & _ & Hp & _ & Hrest).
  by exists p.
Qed.

(** C10, amended: a price cell that is empty once it is trimmed and its
    spaces are removed makes [parseDecimal] return zero without an error, and
    the importer does not skip such a row: when both names resolve and the
    insert succeeds, the row is counted as a success and the stored product
    has the price zero. *)
Theorem parseDecimal_blank_is_zero (s : string) :
  without_spaces (TrimSpace s) = "" →
  parseDecimal s = Ok float64_zero
  ∧ (∀ i row st w mid w1 tid w2 id w3,
       (5 ≤ length row)%nat →
       cell row 3 = s →
       getMaterialID (TrimSpace (cell row 4)) w = (Ok mid, w1) →
       getTypeID (TrimSpace (cell row 0)) w1 = (Ok tid, w2) →
       autocommit (stmt_insert_product (TrimSpace (cell row 1)) mid tid float64_zero
                     (TrimSpace (cell row 2))) w2 = (Ok id, w3) →
       import_row i row st w = (count_success st, w3)
       ∧ ∃ p, products (db w3) = products (db w) ++ [p]
           ∧ p_id p = id
           ∧ min_price p = numeric_of_float64 float64_zero).
Proof.
  intros Hblank.
  assert (parseDecimal s = Ok float64_zero) as Hzero.
  { unfold parseDecimal. by rewrite ReplaceAll_blank. }
  split; [done|].
  intros i row st w mid w1 tid w2 id w3 Hlen Hcell Hm Ht Hins. split.
  - unfold import_row. rewrite decide_False by lia. rewrite Hcell, Hzero.
    unfold mbind, M_bind. by rewrite Hm, Ht, Hins.
  - apply getMaterialID_db in Hm. apply getTypeID_db in Ht.
    apply autocommit_insert_product_ok in Hins as (p & Hp & Hid & _ & _ & _ & Hprice & _).
    exists p. split; [congruence|done].
Qed.

(** *** The aggregating query *)

Lemma filter_key_unique {A} (f : A → Z) (l : list A) (a : Z) :
  NoDup (f <$> l) →
  filter (λ x, a = f x) l = [] ∨ ∃ x, filter (λ x, a = f x) l = [x].
Proof.
  induction l as [|y l IH]; [by left|].
  rewrite fmap_cons, NoDup_cons. intros [Hy Hnd].
  destruct (decide (a = f y)) as [->|Hne].
  - right. exists y. rewrite filter_cons_True by done. f_equal.
    apply elem_of_nil_inv. intros z [Hz Hin]%list_elem_of_filter.
    apply Hy. rewrite Hz. by apply list_elem_of_fmap_2.
  - rewrite filter_cons_False by done. by apply IH.
Qed.

Lemma left_join_pw_row (T : Tables) (p : products_row) (m : materials_row)
    (pt : products_types_row) (j : joined_row) :
  j ∈ left_join_pw T p m pt → j_p j = p ∧ j_m j = m ∧ j_pt j = pt.
Proof.
  unfold left_join_pw. destruct (filter _ (products_workshop T)) as [|pw pws].
  - by intros ->%list_elem_of_singleton.
  - by intros (pw' & -> & _)%list_elem_of_fmap.
Qed.

Lemma left_join_pw_nonempty (T : Tables) (p : products_row) (m : materials_row)
    (pt : products_types_row) :
  left_join_pw T p m pt ≠ [].
Proof.
  unfold left_join_pw. by destruct (filter _ (products_workshop T)).
Qed.

Lemma joins_of_product_cases (T : Tables) (p : products_row) :
  keys_unique T →
  joins_of_product T p = []
  ∨ ∃ m pt, joins_of_product T p = left_join_pw T p m pt.
Proof.
  intros (_ & Hm & Hpt). unfold joins_of_product.
  destruct (filter_key_unique m_id (materials T) (material_id p) Hm) as [->|[m ->]];
    [by left|].
  destruct (filter_key_unique pt_id (products_types T) (type_id p) Hpt) as [->|[pt ->]];
    [by left|].
  right. exists m, pt. simpl. by rewrite !app_nil_r.
Qed.

Lemma joins_of_product_row (T : Tables) (p : products_row) (j : joined_row) :
  j ∈ joins_of_product T p → j_p j = p.
Proof.
  unfold joins_of_product.
  intros (m & Hj & _)%list_elem_of_bind.
  apply list_elem_of_bind in Hj as (pt & Hj & _).
  by apply left_join_pw_row in Hj as [? _].
Qed.

Lemma filter_all {A} (P : A → Prop) `{!∀ x, Decision (P x)} (l : list A) :
  (∀ x, x ∈ l → P x) → filter P l = l.
Proof.
  induction l as [|x l IH]; [done|]. intros Hall.
  rewrite filter_cons_True by (apply Hall; left).
  f_equal. apply IH. intros y Hy. apply Hall. by right.
Qed.

Lemma filter_none {A} (P : A → Prop) `{!∀ x, Decision (P x)} (l : list A) :
  (∀ x, x ∈ l → ¬ P x) → filter P l = [].
Proof.
  intros Hnone. apply elem_of_nil_inv. intros x [HP Hx]%list_elem_of_filter.
  by apply (Hnone x).
Qed.

(** The rows of one group are the rows the left join makes for its product. *)
Lemma group_rows (T : Tables) (j0 : joined_row) :
  keys_unique T →
  j0 ∈ from_joins T →
  filter (λ j, key_of j = key_of j0) (from_joins T) =
    left_join_pw T (j_p j0) (j_m j0) (j_pt j0).
Proof.
  intros Hkeys. pose proof Hkeys as [Hnd _]. unfold from_joins.
  revert Hnd. generalize (products T) as ps.
  induction ps as [|p ps IH]; [by intros _ ?%elem_of_nil|].
  rewrite fmap_cons, NoDup_cons, bind_cons, filter_app, elem_of_app.
  intros [Hp Hnd] [Hj0|Hj0].
  - rewrite (filter_none _ (ps ≫= _)), app_nil_r.
    + destruct (joins_of_product_cases T p Hkeys) as [Hnil|(m & pt & Heq)].
      { rewrite Hnil in Hj0. by apply elem_of_nil in Hj0. }
      rewrite Heq in Hj0 |- *.
      pose proof (left_join_pw_row _ _ _ _ _ Hj0) as (Hjp & Hjm & Hjpt).
      rewrite Hjp, Hjm, Hjpt. apply filter_all.
      intros j (Hp' & Hm' & Hpt')%left_join_pw_row.
      unfold key_of. congruence.
    + intros j (p' & Hj & Hp')%list_elem_of_bind Hk.
      apply joins_of_product_row in Hj, Hj0. apply Hp.
      assert (p_id p = p_id p') as -> by (unfold key_of in Hk; congruence).
      by apply list_elem_of_fmap_2.
  - rewrite (filter_none _ (joins_of_product T p)), app_nil_l; [by apply IH|].
    intros j Hj Hk.
    apply list_elem_of_bind in Hj0 as (p' & Hj0 & Hp').
    apply joins_of_product_row in Hj, Hj0. apply Hp.
    assert (p_id p = p_id p') as -> by (unfold key_of in Hk; congruence).
    by apply list_elem_of_fmap_2.
Qed.

Lemma omap_id_fmap {A B} (f : A → option B) (l : list A) :
  omap id (f <$> l) = omap f l.
Proof.
  induction l as [|x l IH]; [done|].
  rewrite fmap_cons. cbn [omap list_omap]. rewrite IH. by destruct (f x).
Qed.

(** [COALESCE(SUM(pw.production_time), 0)] over the rows of one product. *)
Lemma left_join_pw_total (T : Tables) (p : products_row) (m : materials_row)
    (pt : products_types_row) :
  COALESCE (SUM (pw_production_time <$> left_join_pw T p m pt)) (Num 0) =
    total_time (links_of T (p_id p)).
Proof.
  unfold left_join_pw, links_of, total_time.
  destruct (filter _ (products_workshop T)) as [|pw pws]; [done|].
  rewrite <- list_fmap_compose. unfold SUM. rewrite omap_id_fmap.
  change (omap (pw_production_time ∘ _) (pw :: pws))
    with (omap production_time (pw :: pws)).
  by destruct (omap production_time (pw :: pws)).
Qed.

(** Every row of the grouped result carries the total of its product. *)
Lemma group_by_and_select_total (T : Tables) (Q : joined_row → Prop)
    `{!∀ j, Decision (Q j)} (r : select_row) :
  keys_unique T →
  (∀ j j', key_of j = key_of j' → Q j' → Q j) →
  r ∈ group_by_and_select (filter Q (from_joins T)) →
  s_total_production_time r = total_time (links_of T (s_id r))
  ∧ ∃ j0, j0 ∈ from_joins T ∧ Q j0 ∧ s_id r = p_id (j_p j0).
Proof.
  intros Hkeys HQ. unfold group_by_and_select.
  intros (k & -> & Hk)%list_elem_of_fmap.
  apply elem_of_remove_dups, list_elem_of_fmap in Hk as (j0 & -> & Hj0).
  apply list_elem_of_filter in Hj0 as [HQ0 Hj0].
  assert (filter (λ j, key_of j = key_of j0) (filter Q (from_joins T)) =
          left_join_pw T (j_p j0) (j_m j0) (j_pt j0)) as Hrows.
  { rewrite <- (group_rows T j0 Hkeys Hj0), list_filter_filter.
    apply list_filter_iff. intros j. split; [by intros [? _]|].
    intros Hk. split; [done|]. by apply (HQ j j0). }
  unfold select_group.
  destruct (key_of j0) as [[[[[id pn] mn] tn] pr] ar] eqn:Hkey. simpl.
  assert (id = p_id (j_p j0)) as -> by (unfold key_of in Hkey; congruence).
  split; [|by exists j0].
  rewrite Hrows. apply left_join_pw_total.
Qed.

Lemma Scan_product_ok (r : select_row) (p : ProductWithTime) :
  Scan_product r = Ok p →
  ID p = s_id r
  ∧ TotalProductionTime p = float64_of_numeric (s_total_production_time r).
Proof.
  unfold Scan_product.
  destruct (s_min_price r), (s_article r); try done. by intros [= <-].
Qed.

Lemma scan_products_inv (rows : list select_row) :
  ∀ (acc ps : list ProductWithTime),
    scan_products rows acc = Ok ps →
    ∀ p, p ∈ ps → p ∈ acc ∨ ∃ r, r ∈ rows ∧ Scan_product r = Ok p.
Proof.
  induction rows as [|r rows IH]; intros acc ps; simpl.
  - intros [= <-] p Hp. by left.
  - destruct (Scan_product r) as [q|e] eqn:Hr; [|done].
    intros Hrest p Hp.
    destruct (IH _ _ Hrest p Hp) as [[Hacc| ->%list_elem_of_singleton]%elem_of_app
                                    |(r' & Hr' & Hs)].
    + by left.
    + right. exists r. split; [left|done].
    + right. exists r'. split; [by right|done].
Qed.

Lemma GetAllProducts_unfold (w : World) :
  GetAllProducts w =
    (if next_fails w then Err (ErrPg ConnFailure)
     else scan_products (query_all_products (db w)) [],
     (round_trip w).2).
Proof.
  unfold GetAllProducts.
  apply (autocommit_query (λ T, scan_products (query_all_products T) [])).
Qed.

(** C4: in both aggregated reads the total production time of a product
    is the sum of the times of its links.  With the primary keys in force,
    every product returned by [GetAllProducts] and the product returned by
    [GetProductByID] carry the sum of the production times of the links of that
    product; the sum over no link is the number zero, and links of 2.50 and
    3.50 give 6.00. *)
Theorem total_production_time_is_sum_of_links (w : World) :
  keys_unique (db w) →
  (∀ ps w', GetAllProducts w = (Ok ps, w') →
     ∀ p, p ∈ ps →
       TotalProductionTime p =
         float64_of_numeric (total_time (links_of (db w) (ID p))))
  ∧ (∀ id p w', GetProductByID id w = (Ok (Some p), w') →
       ID p = id
       ∧ TotalProductionTime p =
           float64_of_numeric (total_time (links_of (db w) id)))
  ∧ (∀ id, links_of (db w) id = [] → total_time (links_of (db w) id) = Num 0)
  ∧ (∀ l1 l2, production_time l1 = Some (Num 250) →
       production_time l2 = Some (Num 350) →
       total_time [l1; l2] = Num 600).
Proof.
  intros Hkeys. split; [|split; [|split]].
  - intros ps w'. rewrite GetAllProducts_unfold.
    destruct (next_fails w); [done|]. intros [= Hscan _] p Hp.
    destruct (scan_products_inv _ _ _ Hscan p Hp) as [[]%elem_of_nil|(r & Hr & Hs)].
    apply Scan_product_ok in Hs as [-> ->].
    unfold query_all_products in Hr. rewrite merge_sort_Permutation in Hr.
    rewrite <- (filter_all (λ _, True) (from_joins (db w))) in Hr by done.
    apply group_by_and_select_total in Hr as [-> _]; done.
  - intros id p w'. rewrite GetProductByID_unfold.
    destruct (next_fails w); [done|].
    destruct (query_product_by_id (db w) id) as [|r rows] eqn:Hq; [done|].
    destruct (Scan_product r) as [q|e] eqn:Hs; [|done].
    intros [= <- _]. apply Scan_product_ok in Hs as [-> ->].
    assert (r ∈ query_product_by_id (db w) id) as Hr by (rewrite Hq; left).
    unfold query_product_by_id in Hr.
    apply group_by_and_select_total in Hr as [-> (j0 & _ & Hid & ->)].
    + by rewrite Hid.
    + done.
    + intros j j' Hk <-. unfold key_of in Hk. congruence.
  - by intros id ->.
  - intros l1 l2 H1 H2. unfold total_time. simpl. by rewrite H1, H2.
Qed.

(** *** The delete handler of the earlier copy *)

(** C3, on the earlier copy of the server: the failure branch of its delete
    handler does not return, so for a request whose id parses and whose delete
    fails it writes the 502 error body and then the 200 success body, where the
    handler of [main.go] writes the error body alone; and it registers DELETE at
    /api/products, without the [:id] segment under which [main.go] registers
    it. *)
Theorem Server_DeleteById_v0_writes_success_after_failure
    (c : gin_request) (id : Z) (w w' : World) (e : error) :
  Sscanf_d (Param c "id") = Some id →
  DeleteById id w = (Some e, w') →
  Server_DeleteById_v0 c w =
    ([ {| status := 502; body := JError MsgDeleteFailed |};
       {| status := 200; body := JMessage MsgDeleted |} ], w')
  ∧ Server_DeleteById c w =
      ([ {| status := 502; body := JError MsgDeleteFailed |} ], w')
  ∧ r_path <$> filter (λ r, r_method r = "DELETE") routes_v0 = [ "/api/products" ]
  ∧ r_path <$> filter (λ r, r_method r = "DELETE") routes = [ "/api/products/:id" ].
Proof.
  intros Hid Hdel. split; [|split; [|split]].
  - unfold Server_DeleteById_v0. rewrite Hid. unfold mbind, M_bind. by rewrite Hdel.
  - rewrite (Server_DeleteById_parsed _ _ _ Hid). by rewrite Hdel.
  - reflexivity.
  - reflexivity.
Qed.

End Properties.


(** ** Closed instances on the sample data *)

Lemma sample_keys_unique : keys_unique sample_tables.
Proof.
  repeat split; apply (bool_decide_unpack _); exact I.
Qed.

(** The scenario of the specification: the second pair repeats workshop 1,
    the call fails on it and no Widget row and no link is stored. *)
Example widget_with_duplicate_workshop_leaves_nothing :
  CreateProductWithWorkshops widget (sample_world []) =
    (Err (ErrAddWorkshop 1 (ErrPg UniqueViolation)),
     {| db := sample_tables; products_id_seq := 3; products_workshop_id_seq := 4;
        open_tx := None; faults := [] |}).
Proof. reflexivity. Qed.

(** A product that refers to a material that does not exist is refused. *)
Example unknown_material_leaves_nothing :
  CreateProductWithWorkshops
    (@Build_CreateProductWithWorkshopsInput decimal_platform
       "Orphan" 99 1 1%Q "O-1" []) (sample_world []) =
    (Err (ErrCreateProduct (ErrPg ForeignKeyViolation)),
     {| db := sample_tables; products_id_seq := 3; products_workshop_id_seq := 2;
        open_tx := None; faults := [] |}).
Proof. reflexivity. Qed.

(** A failure of the commit round trip leaves nothing either. *)
Example gadget_commit_failure_leaves_nothing :
  (CreateProductWithWorkshops gadget (sample_world [false; false; false; false; true])).1 =
    Err (ErrCommitTx (ErrPg ConnFailure))
  ∧ db (CreateProductWithWorkshops gadget
          (sample_world [false; false; false; false; true])).2 = sample_tables.
Proof. split; reflexivity. Qed.

(** Without failure the product and its two links are stored. *)
Example gadget_is_stored_with_both_links :
  (CreateProductWithWorkshops gadget (sample_world [])).1 = Ok 3
  ∧ length (products (db (CreateProductWithWorkshops gadget (sample_world [])).2)) = 3%nat
  ∧ length (products_workshop
              (db (CreateProductWithWorkshops gadget (sample_world [])).2)) = 4%nat.
Proof. repeat split; reflexivity. Qed.

(** The aggregated list of the sample database: 2.50 + 3.50 = 6 for the
    stool, 0 for the bench, which has no link. *)
Example sample_totals :
  (λ p, (ID p, TotalProductionTime p)) <$>
    match (@GetAllProducts decimal_platform (sample_world [])).1 with
    | Ok ps => ps
    | Err _ => []
    end = [ (1, 6%Q); (2, 0%Q) ].
Proof. reflexivity. Qed.

(** The sample workbook: two rows are stored, three are counted as errors,
    and the row with the blank price is stored with the price zero. *)
Example sample_import :
  (@import_main decimal_platform sample_workbook (sample_world [])).1 =
    {| successCount := 2; errorCount := 3;
       logged := [ (3, ShortRow);
                   (5, BadLookup (ErrMaterialNotFound "Marble"));
                   (6, BadPrice "Oak" (ErrInvalidNumber ErrSyntax)) ] |}
  ∧ (λ p, (product_name p, min_price p)) <$>
      products (db (@import_main decimal_platform sample_workbook (sample_world [])).2) =
    [ ("Stool", Some (Num 1999)); ("Bench", Some (Num 4500));
      ("Armchair", Some (Num 1250)); ("Free", Some (Num 0)) ].
Proof. split; reflexivity. Qed.

(** Routing of DELETE in the two copies. *)
Example delete_routing :
  (@serve decimal_platform routes Server_DeleteById "DELETE" "/api/products/1"
     None None (sample_world [])).1 =
    Some [ {| status := 200; body := JMessage MsgDeleted |} ]
  ∧ (@serve decimal_platform routes_v0 Server_DeleteById_v0 "DELETE" "/api/products/1"
       None None (sample_world [])).1 = None
  ∧ (@serve decimal_platform routes_v0 Server_DeleteById_v0 "DELETE" "/api/products"
       None None (sample_world [])).1 =
    Some [ {| status := 400; body := JError MsgBadId |} ].
Proof. repeat split; reflexivity. Qed.

Lemma CreateProductWithWorkshops_atomic_witness :
  open_tx (sample_world []) = None
  ∧ open_tx (CreateProductWithWorkshops gadget (sample_world [])).2 = None.
Proof.
  split; [reflexivity|].
  refine (proj1 (@CreateProductWithWorkshops_atomic decimal_platform gadget
                   (sample_world [])
                   (CreateProductWithWorkshops gadget (sample_world [])).2
                   (CreateProductWithWorkshops gadget (sample_world [])).1 _ _));
    reflexivity.
Defined.

Lemma DeleteById_zero_rows_first_witness :
  DeleteById 7 (sample_world [true]) = (Some ErrNothingDeleted, sample_world []).
Proof.
  refine (proj1 (DeleteById_zero_rows_first 7 (sample_world [true]) (sample_world [])
                   {| RowsAffected := 0 |} (Some (ErrPg ConnFailure)) _ _));
    reflexivity.
Defined.

Lemma Server_DeleteById_v0_writes_success_after_failure_witness :
  @Server_DeleteById_v0 decimal_platform (request_with_id "7") (sample_world []) =
    ([ {| status := 502; body := JError MsgDeleteFailed |};
       {| status := 200; body := JMessage MsgDeleted |} ], sample_world []).
Proof.
  refine (proj1 (@Server_DeleteById_v0_writes_success_after_failure decimal_platform
                   (request_with_id "7") 7 (sample_world []) (sample_world [])
                   ErrNothingDeleted _ _));
    reflexivity.
Defined.

Lemma total_production_time_is_sum_of_links_witness :
  keys_unique sample_tables
  ∧ ID stool_as_read = 1
  ∧ TotalProductionTime stool_as_read =
      float64_of_numeric (total_time (links_of sample_tables 1)).
Proof.
  split; [exact sample_keys_unique|].
  refine (proj1 (proj2 (@total_production_time_is_sum_of_links decimal_platform
                          (sample_world []) sample_keys_unique))
            1 stool_as_read (sample_world []) _).
  reflexivity.
Defined.

Lemma GetProductByID_not_found_is_not_an_error_witness :
  @GetProductByIDHandler decimal_platform (request_with_id "7") (sample_world []) =
    ([ {| status := 404; body := JError MsgProductNotFound |} ], sample_world []).
Proof.
  refine (proj2 (proj1 (@GetProductByID_not_found_is_not_an_error decimal_platform
                          (request_with_id "7") 7 (sample_world []) _) _ _));
    [reflexivity|reflexivity|].
  intros p Hp.
  repeat (apply elem_of_cons in Hp as [->|Hp]; [discriminate|]).
  by apply elem_of_nil in Hp.
Defined.

Lemma importer_counts_every_row_witness :
  successCount (@import_main decimal_platform sample_workbook (sample_world [])).1
  + errorCount (@import_main decimal_platform sample_workbook (sample_world [])).1 = 5.
Proof.
  refine (proj1 (@importer_counts_every_row decimal_platform sample_workbook
                   (sample_world []) _)).
  reflexivity.
Defined.

Lemma parseDecimal_comma_is_decimal_point_witness :
  @parseDecimal decimal_platform "12,50" = Ok (25 # 2)%Q.
Proof.
  refine (proj1 (@parseDecimal_comma_is_decimal_point decimal_platform (25 # 2)%Q _)).
  reflexivity.
Defined.

Lemma name_lookup_is_exact_up_to_case_witness :
  is_ok (@getMaterialID decimal_platform "OAK" (sample_world [])).1 = true
  ↔ ∃ m, @material_matches decimal_platform sample_tables "OAK" m.
Proof.
  refine (proj1 (@name_lookup_is_exact_up_to_case decimal_platform "OAK"
                   (sample_world []) _)).
  reflexivity.
Defined.

Lemma created_rows_survive_failed_read_back_witness :
  (@CreateProductHandler decimal_platform (request_with_product shelf)
     (sample_world [false; true])).1 =
    [ {| status := 500; body := JError MsgCreatedButNotRead |} ]
  ∧ (@CreateProductWithWorkshopsHandler decimal_platform (request_with_workshops gadget)
       (sample_world [false; false; false; false; false; true])).1 =
    [ {| status := 500; body := JError MsgCreatedButNotRead |} ].
Proof.
  pose proof (@created_rows_survive_failed_read_back decimal_platform
    (request_with_product shelf) shelf
    (sample_world [false; true])
    (CreateProduct shelf (sample_world [false; true])).2
    (@GetProductByID decimal_platform 3 (CreateProduct shelf (sample_world [false; true])).2).2
    3 (ErrPg ConnFailure)
    (request_with_workshops gadget) gadget
    (sample_world [false; false; false; false; false; true])
    (CreateProductWithWorkshops gadget
       (sample_world [false; false; false; false; false; true])).2
    (@GetProductByID decimal_platform 3
       (CreateProductWithWorkshops gadget
          (sample_world [false; false; false; false; false; true])).2).2
    3 (ErrPg ConnFailure)
    eq_refl eq_refl eq_refl eq_refl eq_refl eq_refl eq_refl) as [[H1 _] [H2 _]].
  split; [by rewrite H1|by rewrite H2].
Defined.

(** C10 as stated fails: the cell "," is empty once spaces and commas are
    removed, yet [parseDecimal] turns the comma into a point and reports the
    parse error of ".". *)
Lemma parseDecimal_comma_cell_is_an_error :
  ¬ (∀ s, without_spaces_and_commas (TrimSpace s) = "" →
          @parseDecimal decimal_platform s = Ok 0%Q).
Proof.
  intros Hclaim. specialize (Hclaim "," eq_refl). vm_compute in Hclaim. discriminate.
Qed.

Lemma parseDecimal_blank_is_zero_witness :
  @parseDecimal decimal_platform "  " = Ok 0%Q.
Proof.
  refine (proj1 (@parseDecimal_blank_is_zero decimal_platform "  " _)).
  reflexivity.
Defined.

(** ** Further properties of the repository layer *)

Section Repository.
Context `{Platform}.

Ltac run := unfold mbind, mret, M_bind, M_ret in *; simpl in *.

(** *** Single inserts *)

(** [CreateProduct] stores all of one row or nothing: on success the
    products have gained exactly the row built from the input, under an
    identifier no earlier product has, with an existing material and type, and
    every other table is as before; on an error no table has changed. *)
Theorem CreateProduct_all_or_nothing (input : CreateProductInput) (w : World) :
  (∃ id p,
     (CreateProduct input w).1 = Ok id
     ∧ products (db (CreateProduct input w).2) = products (db w) ++ [p]
     ∧ product_stored id input p
     ∧ (id ∉ p_id <$> products (db w))
     ∧ cp_MaterialID input ∈ m_id <$> materials (db w)
     ∧ cp_TypeID input ∈ pt_id <$> products_types (db w)
     ∧ same_reference (db w) (db (CreateProduct input w).2)
     ∧ products_workshop (db (CreateProduct input w).2) = products_workshop (db w))
  ∨ (∃ e, (CreateProduct input w).1 = Err e ∧ db (CreateProduct input w).2 = db w).
Proof.
  destruct (CreateProduct input w) as [[id|e] w'] eqn:Hc; simpl.
  2:{ right. exists e. split; [done|].
      apply autocommit_inv in Hc as (_ & _ & Herr);
        [exact (Herr e eq_refl)|intros; apply stmt_insert_product_frame]. }
  left. apply autocommit_inv in Hc as (_ & Hok & _);
    [|intros; apply stmt_insert_product_frame].
  destruct (Hok id eq_refl) as [w0 Hs]. revert Hs.
  unfold stmt_insert_product. run.
  destruct (numeric_of_float64 (cp_MinPrice input)) as [price|] eqn:Hprice; simpl; [|done].
  destruct (insert_products _ _ _ _ _ _ _) as [T1|] eqn:Hi; simpl; [|done].
  intros [= Hid HT]. rewrite <- HT.
  apply insert_products_inv in Hi as (Href & Hp & Hpw & Hfresh & Hm & Ht).
  eexists id, _. split; [done|]. split; [exact Hp|].
  rewrite <- Hid in *.
  split; [by repeat split|]. repeat split; try done; apply Href.
Qed.

(** *** Deletion *)

Lemma delete_products_miss (T : Tables) (id : Z) :
  (∀ p, p ∈ products T → p_id p ≠ id) → delete_products T id = (0, T).
Proof.
  intros Hmiss. unfold delete_products.
  rewrite (filter_none (λ p, p_id p = id)) by done.
  rewrite (filter_all (λ p, p_id p ≠ id)) by done.
  by destruct T.
Qed.

Lemma delete_products_hit (T : Tables) (id : Z) (p : products_row) :
  p ∈ products T → p_id p = id →
  0 < (delete_products T id).1
  ∧ products (delete_products T id).2 = filter (λ p, p_id p ≠ id) (products T)
  ∧ products_workshop (delete_products T id).2 =
      filter (λ l, product_id l ≠ id) (products_workshop T)
  ∧ same_reference T (delete_products T id).2.
Proof.
  intros Hp Hid. unfold delete_products.
  destruct (filter (λ p, p_id p = id) (products T)) as [|q hit] eqn:Hhit.
  - by destruct (filter_nil_not_elem_of _ _ p Hhit Hid).
  - simpl. split; [lia|]. by repeat split.
Qed.

Lemma DeleteById_cases (id : Z) (w : World) :
  (next_fails w = true
   ∧ DeleteById id w = (Some ErrNothingDeleted, (round_trip w).2))
  ∨ (next_fails w = false
     ∧ (∀ p, p ∈ products (db w) → p_id p ≠ id)
     ∧ DeleteById id w = (Some ErrNothingDeleted, (round_trip w).2))
  ∨ (next_fails w = false
     ∧ (∃ p, p ∈ products (db w) ∧ p_id p = id)
     ∧ (DeleteById id w).1 = None
     ∧ db (DeleteById id w).2 = (delete_products (db w) id).2).
Proof.
  rewrite DeleteById_unfold. unfold pool_Exec_delete.
  unfold mbind, mret, M_bind, M_ret, round_trip, get_world, set_db.
  destruct (next_fails w) eqn:Hf; cbn [db]; [by left|right].
  destruct (filter_head_cases (λ p, p_id p = id) (products (db w)))
    as [[_ Hall]|(p & l' & _ & Hp & Hid)].
  - left. split; [done|]. split; [done|].
    rewrite (delete_products_miss _ _ Hall). simpl. by destruct w.
  - right. split; [done|]. split; [by exists p|].
    pose proof (delete_products_hit _ _ _ Hp Hid) as [Hn _].
    destruct (delete_products (db w) id) as [n T'] eqn:Hd; simpl in *.
    unfold delete_outcome; simpl. rewrite decide_False by lia. done.
Qed.

(** [DeleteById] returns nil exactly when the statement ran and a product
    had the identifier; in every other case it returns the nothing-deleted
    error.  The second error of the source, for a failed statement, is never
    returned: a failed statement comes with the empty command tag, which the
    first check takes. *)
Theorem DeleteById_nil_or_nothing_deleted (id : Z) (w : World) :
  ((DeleteById id w).1 = None
   ↔ next_fails w = false ∧ ∃ p, p ∈ products (db w) ∧ p_id p = id)
  ∧ ((DeleteById id w).1 = None ∨ (DeleteById id w).1 = Some ErrNothingDeleted)
  ∧ (DeleteById id w).1 ≠ Some ErrDelete.
Proof.
  destruct (DeleteById_cases id w)
    as [[Hf ->]|[(Hf & Hmiss & ->)|(Hf & Hhit & -> & _)]]; simpl.
  - split; [|by split; [right|]]. split; [done|]. intros [? _]. congruence.
  - split; [|by split; [right|]]. split; [done|].
    intros [_ (p & Hp & Hid)]. by destruct (Hmiss p).
  - split; [|by split; [left|]]. done.
Qed.

(** A successful [DeleteById] removes the products with the identifier
    and, by the cascade, the links of that product, and nothing else; with the
    primary key in force that is exactly one product.  A failed one leaves
    every table as it was. *)
Theorem DeleteById_removes_product_and_links (id : Z) (w : World) :
  ((DeleteById id w).1 = None →
     products (db (DeleteById id w).2) = filter (λ p, p_id p ≠ id) (products (db w))
     ∧ products_workshop (db (DeleteById id w).2) =
         filter (λ l, product_id l ≠ id) (products_workshop (db w))
     ∧ same_reference (db w) (db (DeleteById id w).2)
     ∧ (NoDup (p_id <$> products (db w)) →
          S (length (products (db (DeleteById id w).2))) = length (products (db w))))
  ∧ ((DeleteById id w).1 ≠ None → db (DeleteById id w).2 = db w).
Proof.
  destruct (DeleteById_cases id w)
    as [[Hf ->]|[(Hf & Hmiss & ->)|(Hf & (p & Hp & Hid) & -> & ->)]].
  - split; [done|]. intros _. apply round_trip_db.
  - split; [done|]. intros _. apply round_trip_db.
  - split; [|done]. intros _.
    destruct (delete_products_hit _ _ _ Hp Hid) as (_ & Hps & Hls & Href).
    split; [done|]. split; [done|]. split; [done|].
    intros Hnd. rewrite Hps. clear -Hp Hid Hnd.
    induction (products (db w)) as [|q ps IH]; [by apply elem_of_nil in Hp|].
    rewrite fmap_cons, NoDup_cons in Hnd. destruct Hnd as [Hq Hnd].
    apply elem_of_cons in Hp as [->|Hp].
    + rewrite filter_cons_False by (intros Hne; by apply Hne).
      rewrite filter_all; [done|].
      intros r Hr Heq. apply Hq. rewrite Hid, <- Heq.
      by apply list_elem_of_fmap_2.
    + rewrite filter_cons_True.
      * simpl. f_equal. by apply IH.
      * intros Heq. apply Hq. rewrite Heq, <- Hid. by apply list_elem_of_fmap_2.
Qed.

(** *** The integrity of the schema is kept *)

Lemma NoDup_fmap_filter {A B} (f : A → B) (P : A → Prop) `{!∀ x, Decision (P x)}
    (l : list A) :
  NoDup (f <$> l) → NoDup (f <$> filter P l).
Proof.
  induction l as [|x l IH]; [done|].
  rewrite fmap_cons, NoDup_cons. intros [Hx Hnd].
  rewrite filter_cons. destruct (decide (P x)); [|by apply IH].
  rewrite fmap_cons, NoDup_cons. split; [|by apply IH].
  intros (y & Hy & [_ Hin]%list_elem_of_filter)%list_elem_of_fmap.
  apply Hx. rewrite Hy. by apply list_elem_of_fmap_2.
Qed.

Lemma NoDup_fmap_snoc {A B} (f : A → B) (l : list A) (x : A) :
  NoDup (f <$> l) → f x ∉ f <$> l → NoDup (f <$> l ++ [x]).
Proof.
  intros Hnd Hx. rewrite fmap_app, NoDup_app.
  split; [done|]. split; [|apply NoDup_singleton].
  intros y Hy ->%list_elem_of_singleton. done.
Qed.

Lemma insert_products_consistent (T T' : Tables) (id : Z) (name : string)
    (mid tid : Z) (price : numeric) (art : string) :
  db_consistent T →
  insert_products T id name mid tid price art = Ok T' →
  db_consistent T'.
Proof.
  intros (Hm & Hpt & Hw & Hp & Hpw & Hu & Hfp & Hfl) Hi.
  apply insert_products_inv in Hi as ((Em & Ept & Ew) & Ep & Epw & Hfresh & Hmid & Htid).
  unfold db_consistent. rewrite Em, Ept, Ew, Ep, Epw.
  repeat split; try done.
  - by apply NoDup_fmap_snoc.
  - apply elem_of_app in H0 as [Hq| ->%list_elem_of_singleton]; [by apply Hfp|done].
  - apply elem_of_app in H0 as [Hq| ->%list_elem_of_singleton]; [by apply Hfp|done].
  - rewrite fmap_app, elem_of_app. left. by apply Hfl.
  - by apply Hfl.
Qed.

Lemma insert_products_workshop_consistent (T T' : Tables) (id pid wid : Z)
    (time : numeric) :
  db_consistent T →
  insert_products_workshop T id pid wid time = Ok T' →
  db_consistent T'.
Proof.
  intros (Hm & Hpt & Hw & Hp & Hpw & Hu & Hfp & Hfl).
  unfold insert_products_workshop.
  destruct (bool_decide (id ∈ _)) eqn:Hpk; [done|].
  destruct (bool_decide ((pid, wid) ∈ _)) eqn:Hun; [done|].
  destruct (bool_decide (pid ∈ _)) eqn:Hpid; simpl; [|done].
  destruct (bool_decide (wid ∈ _)) eqn:Hwid; simpl; [|done].
  intros [= <-]. apply bool_decide_eq_false in Hpk, Hun.
  apply bool_decide_eq_true in Hpid, Hwid.
  unfold db_consistent, set_products_workshop. simpl.
  repeat split; try done.
  - by apply NoDup_fmap_snoc.
  - by apply (NoDup_fmap_snoc (λ l, (product_id l, workshop_id l))).
  - by apply Hfp.
  - by apply Hfp.
  - apply elem_of_app in H0 as [Hq| ->%list_elem_of_singleton]; [by apply Hfl|done].
  - apply elem_of_app in H0 as [Hq| ->%list_elem_of_singleton]; [by apply Hfl|done].
Qed.

Lemma delete_products_consistent (T : Tables) (id : Z) :
  db_consistent T → db_consistent (delete_products T id).2.
Proof.
  intros Hc.
  destruct (filter_head_cases (λ p, p_id p = id) (products T))
    as [[_ Hall]|(p & l' & Hhit & Hp & Hid)].
  { by rewrite (delete_products_miss _ _ Hall). }
  destruct Hc as (Hm & Hpt & Hw & Hps & Hpw & Hu & Hfp & Hfl).
  unfold delete_products. rewrite Hhit. unfold db_consistent. simpl.
  repeat split; try done.
  - by apply NoDup_fmap_filter.
  - by apply NoDup_fmap_filter.
  - by apply (NoDup_fmap_filter (λ l, (product_id l, workshop_id l))).
  - apply list_elem_of_filter in H0 as [_ Hq]. by apply Hfp.
  - apply list_elem_of_filter in H0 as [_ Hq]. by apply Hfp.
  - apply list_elem_of_filter in H0 as [Hne Hl].
    destruct (Hfl l Hl) as [(q & Hq & Hin)%list_elem_of_fmap _].
    apply list_elem_of_fmap. exists q. split; [done|].
    apply list_elem_of_filter. split; [congruence|done].
  - apply list_elem_of_filter in H0 as [_ Hl]. by apply Hfl.
Qed.

Lemma stmt_insert_product_checked (name : string) (mid tid : Z) (price : float64)
    (art : string) (T T' : Tables) (w : World) (id : Z) :
  (stmt_insert_product name mid tid price art T w).1 = Ok (id, T') →
  ∃ price', numeric_of_float64 price = Some price'
    ∧ insert_products T id name mid tid price' art = Ok T'.
Proof.
  unfold stmt_insert_product. run.
  destruct (numeric_of_float64 price) as [price'|]; simpl; [|done].
  destruct (insert_products _ _ _ _ _ _ _) as [T1|] eqn:Hi; simpl; [|done].
  intros [= <- <-]. by exists price'.
Qed.

Lemma stmt_insert_link_checked (pid wid : Z) (time : float64) (T T' : Tables)
    (w : World) :
  (stmt_insert_link pid wid time T w).1 = Ok ((), T') →
  ∃ id time', numeric_of_float64 time = Some time'
    ∧ insert_products_workshop T id pid wid time' = Ok T'.
Proof.
  unfold stmt_insert_link. run.
  destruct (numeric_of_float64 time) as [time'|]; simpl; [|done].
  destruct (insert_products_workshop _ _ _ _ _) as [T1|] eqn:Hi; simpl; [|done].
  intros [= <-]. by eexists _, time'.
Qed.

(** What a completed loop over the pairs has checked. *)
Lemma add_workshops_checked (productID : Z) (ws : list WorkshopInput) :
  ∀ (w w' : World) (work : Tables),
    add_workshops productID ws w = (Ok (), w') →
    open_tx w = Some (TxOpen work) →
    ∃ work',
      open_tx w' = Some (TxOpen work')
      ∧ (db_consistent work → db_consistent work')
      ∧ NoDup (WorkshopID <$> ws)
      ∧ Forall (λ x, WorkshopID x ∈ w_id <$> workshops work
                     ∧ ((productID, WorkshopID x) ∉
                          (λ l, (product_id l, workshop_id l)) <$> products_workshop work)
                     ∧ is_Some (numeric_of_float64 (ProductionTime x))) ws.
Proof.
  induction ws as [|x rest IH]; intros w w' work; simpl add_workshops.
  - unfold mret, M_ret. intros [= <-] Htx. exists work. split; [done|]. split; [done|].
    split; constructor.
  - unfold mbind, M_bind.
    destruct (in_tx _ w) as [r1 w1] eqn:Hin.
    apply in_tx_inv in Hin as [_ Hok1]; [|intros; apply stmt_insert_link_frame].
    destruct r1 as [[]|e1]; simpl; [|by intros [=]].
    intros Hrest Htx.
    destruct (Hok1 () eq_refl) as (work0 & work1 & w0 & Htx0 & Htx1 & Hs).
    assert (work0 = work) as -> by congruence.
    apply stmt_insert_link_checked in Hs as (lid & time' & Htime & Hins).
    destruct (IH _ _ _ Hrest Htx1) as (work2 & Htx2 & Hcons & Hnd & Hall).
    pose proof (insert_products_workshop_inv _ _ _ _ _ _ Hins)
      as ((_ & _ & Ew) & _ & Epw & Hfresh & Hwid).
    exists work2. split; [done|].
    split; [intros Hc; apply Hcons; by eapply insert_products_workshop_consistent|].
    split.
    + change (NoDup (WorkshopID x :: (WorkshopID <$> rest))).
      apply NoDup_cons. split; [|done].
      intros (y & Hy & Hin)%list_elem_of_fmap.
      rewrite Forall_forall in Hall. destruct (Hall y Hin) as (_ & Hnew & _).
      apply Hnew. rewrite Epw, fmap_app, elem_of_app. right.
      rewrite <- Hy. by apply list_elem_of_singleton.
    + constructor.
      * split; [done|]. split; [done|]. by rewrite Htime.
      * eapply Forall_impl; [exact Hall|]. simpl.
        intros y (Hy1 & Hy2 & Hy3). rewrite Ew in Hy1.
        split; [done|]. split; [|done].
        intros Hin. apply Hy2. rewrite Epw, fmap_app, elem_of_app. by left.
Qed.

(** A successful [CreateProductWithWorkshops], statement by statement. *)
Lemma CreateProductWithWorkshops_ok_inv (input : CreateProductWithWorkshopsInput)
    (w w' : World) (id : Z) :
  open_tx w = None →
  CreateProductWithWorkshops input w = (Ok id, w') →
  ∃ price T1 wa wb,
    numeric_of_float64 (cw_MinPrice input) = Some price
    ∧ insert_products (db w) id (cw_ProductName input) (cw_MaterialID input)
        (cw_TypeID input) price (cw_Article input) = Ok T1
    ∧ open_tx wa = Some (TxOpen T1)
    ∧ add_workshops id (Workshops input) wa = (Ok (), wb)
    ∧ open_tx wb = Some (TxOpen (db w')).
Proof.
  intros Hidle. unfold CreateProductWithWorkshops, mbind, M_bind.
  destruct (pool_Begin w) as [r0 w0] eqn:Hb.
  apply pool_Begin_inv in Hb as (Hdb0 & Hok0 & _).
  destruct r0 as [[]|e0]; simpl; [|by intros [=]].
  specialize (Hok0 eq_refl).
  destruct (create_in_tx input w0) as [res w1] eqn:Hc.
  pose proof (tx_Rollback_inv w1) as [Hdb_rb _].
  destruct (tx_Rollback w1) as [rr w2]; simpl in *.
  unfold mret, M_ret. intros [= -> <-]. rewrite Hdb_rb.
  revert Hc. unfold create_in_tx, mbind, M_bind.
  destruct (in_tx _ w0) as [r1 wa] eqn:Hin.
  apply in_tx_inv in Hin as [_ Hoka]; [|intros; apply stmt_insert_product_frame].
  destruct r1 as [productID|e1]; simpl; [|by intros [=]].
  destruct (Hoka productID eq_refl) as (work0 & worka & wx & Htx0 & Htxa & Hs).
  assert (work0 = db w) as -> by congruence.
  apply stmt_insert_product_checked in Hs as (price & Hprice & Hins).
  destruct (add_workshops productID (Workshops input) wa) as [rb wb] eqn:Hadd.
  assert ((if decide (0 < length (Workshops input))%nat
           then add_workshops productID (Workshops input)
           else mret (Ok ())) wa = (rb, wb)) as ->.
  { destruct (decide _) as [Hlen|Hlen]; [done|].
    destruct (Workshops input); simpl in *; [done|lia]. }
  destruct rb as [[]|eb]; simpl; [|by intros [=]].
  destruct (tx_Commit wb) as [rc wc] eqn:Hcm.
  apply tx_Commit_inv in Hcm as (_ & Hokc & _).
  destruct rc as [[]|ec]; simpl; unfold mret, M_ret; [|by intros [=]].
  intros [= <- <-]. destruct (Hokc eq_refl) as (work & Htx & <-).
  by exists price, worka, wa, wb.
Qed.

Lemma CreateProduct_inv (input : CreateProductInput) (w w' : World) (r : result Z) :
  CreateProduct input w = (r, w') →
  (∀ id, r = Ok id →
     ∃ price, numeric_of_float64 (cp_MinPrice input) = Some price
       ∧ insert_products (db w) id (cp_ProductName input) (cp_MaterialID input)
           (cp_TypeID input) price (cp_Article input) = Ok (db w'))
  ∧ (∀ e, r = Err e → db w' = db w).
Proof.
  intros Hc. apply autocommit_inv in Hc as (_ & Hok & Herr);
    [|intros; apply stmt_insert_product_frame].
  split; [|done]. intros id Hid. destruct (Hok id Hid) as [w0 Hs].
  by apply stmt_insert_product_checked in Hs.
Qed.

(** Every write of the repository layer keeps the integrity the schema
    declares: from a state in which the primary keys, the uniqueness of the
    pair (product, workshop) and the foreign keys hold, [CreateProduct],
    [CreateProductWithWorkshops] and [DeleteById] lead to such a state,
    whether they succeed or fail. *)
Theorem repository_writes_keep_integrity (w : World) :
  db_consistent (db w) →
  (∀ input, db_consistent (db (CreateProduct input w).2))
  ∧ (∀ input, open_tx w = None →
       db_consistent (db (CreateProductWithWorkshops input w).2))
  ∧ (∀ id, db_consistent (db (DeleteById id w).2)).
Proof.
  intros Hc. split; [|split].
  - intros input. destruct (CreateProduct input w) as [[id|e] w'] eqn:Hcp; simpl.
    + apply CreateProduct_inv in Hcp as [Hok _].
      destruct (Hok id eq_refl) as (price & _ & Hins).
      by eapply insert_products_consistent.
    + apply CreateProduct_inv in Hcp as [_ Herr]. by rewrite (Herr e).
  - intros input Hidle.
    destruct (CreateProductWithWorkshops input w) as [[id|e] w'] eqn:Hcp; simpl.
    + apply CreateProductWithWorkshops_ok_inv in Hcp
        as (price & T1 & wa & wb & _ & Hins & Htxa & Hadd & Htxb); [|done].
      destruct (add_workshops_checked _ _ _ _ _ Hadd Htxa) as (work' & Htx' & Hcons & _).
      assert (work' = db w') as <- by congruence.
      apply Hcons. by eapply insert_products_consistent.
    + apply CreateProductWithWorkshops_cases in Hcp as [_ Hcases]; [|done].
      destruct Hcases as [(? & ? & ? & [=] & _)|(e' & _ & _ & ->)]. done.
  - intros id.
    destruct (DeleteById_cases id w)
      as [[Hf ->]|[(Hf & Hmiss & ->)|(Hf & _ & _ & ->)]]; [done|done|].
    by apply delete_products_consistent.
Qed.

(** [CreateProductWithWorkshops] refuses a request whose references are
    not valid: when a workshop identifier occurs twice in the list, or a
    workshop, the material or the type does not exist, the call returns an
    error and the committed tables are unchanged. *)
Theorem CreateProductWithWorkshops_rejects_bad_references
    (input : CreateProductWithWorkshopsInput) (w : World) :
  open_tx w = None →
  ¬ NoDup (WorkshopID <$> Workshops input)
  ∨ (∃ x, x ∈ Workshops input ∧ WorkshopID x ∉ w_id <$> workshops (db w))
  ∨ cw_MaterialID input ∉ m_id <$> materials (db w)
  ∨ cw_TypeID input ∉ pt_id <$> products_types (db w) →
  ∃ e, (CreateProductWithWorkshops input w).1 = Err e
    ∧ db (CreateProductWithWorkshops input w).2 = db w.
Proof.
  intros Hidle Hbad.
  destruct (CreateProductWithWorkshops input w) as [[id|e] w'] eqn:Hcp; simpl.
  - exfalso.
    apply CreateProductWithWorkshops_ok_inv in Hcp
      as (price & T1 & wa & wb & _ & Hins & Htxa & Hadd & _); [|done].
    apply insert_products_inv in Hins as ((_ & _ & Ew) & _ & _ & _ & Hm & Ht).
    destruct (add_workshops_checked _ _ _ _ _ Hadd Htxa) as (_ & _ & _ & Hnd & Hall).
    destruct Hbad as [Hdup|[(x & Hx & Hw)|[Hmat|Htyp]]]; [done| |done|done].
    rewrite Forall_forall in Hall. destruct (Hall x Hx) as [Hin _].
    apply Hw. by rewrite <- Ew.
  - exists e. split; [done|].
    apply CreateProductWithWorkshops_cases in Hcp as [_ Hcases]; [|done].
    by destruct Hcases as [(? & ? & ? & [=] & _)|(e' & _ & _ & ->)].
Qed.

(** Deleting a product that [CreateProductWithWorkshops] has just created
    undoes the creation: on a state that satisfies the integrity of the
    schema, when the delete statement runs, [DeleteById] succeeds and the
    cascade removes the new links with the product, so that every table is
    what it was before the creation. *)
Theorem DeleteById_undoes_creation (input : CreateProductWithWorkshopsInput)
    (w w1 : World) (id : Z) :
  db_consistent (db w) →
  open_tx w = None →
  CreateProductWithWorkshops input w = (Ok id, w1) →
  next_fails w1 = false →
  (DeleteById id w1).1 = None ∧ db (DeleteById id w1).2 = db w.
Proof.
  intros Hc Hidle Hcp Hrun.
  pose proof Hcp as Hinv.
  apply CreateProductWithWorkshops_ok_inv in Hinv
    as (price & T1 & _ & _ & _ & Hins & _); [|done].
  apply insert_products_inv in Hins as (_ & _ & _ & Hfresh & _).
  apply CreateProductWithWorkshops_cases in Hcp as [_ Hcases]; [|done].
  destruct Hcases as [(id' & p & links & [= <-] & (Em & Ept & Ew) & Ep & Hpc & Epw & _ & Hall)
                     |(e & [=] & _)].
  destruct Hpc as (Hpid & _).
  assert (p ∈ products (db w1)) as Hp
    by (rewrite Ep, elem_of_app; right; by apply list_elem_of_singleton).
  destruct (DeleteById_cases id w1)
    as [[Hf _]|[(_ & Hmiss & _)|(_ & _ & Hnil & Hdb)]].
  - congruence.
  - by destruct (Hmiss p Hp).
  - split; [done|]. rewrite Hdb.
    destruct (delete_products_hit _ _ _ Hp Hpid) as (_ & Hps & Hls & (Fm & Fpt & Fw)).
    destruct Hc as (_ & _ & _ & _ & _ & _ & _ & Hfl).
    assert (products (delete_products (db w1) id).2 = products (db w)) as Hps'.
    { rewrite Hps, Ep, filter_app.
      rewrite (filter_all _ (products (db w))).
      - rewrite filter_cons_False, filter_nil, app_nil_r; [done|].
        intros Hne. by apply Hne.
      - intros q Hq Heq. apply Hfresh. rewrite <- Heq. by apply list_elem_of_fmap_2. }
    assert (products_workshop (delete_products (db w1) id).2 = products_workshop (db w))
      as Hls'.
    { rewrite Hls, Epw, filter_app.
      rewrite (filter_all _ (products_workshop (db w))).
      - rewrite (filter_none _ links), app_nil_r; [done|].
        intros l Hl Hne. apply Hne.
        revert Hl. clear -Hall. induction Hall as [|x y xs ys Hxy _ IH].
        + by intros ?%elem_of_nil.
        + intros [->|Hl]%elem_of_cons; [by destruct Hxy|by apply IH].
      - intros l Hl Heq. destruct (Hfl l Hl) as [Hin _].
        apply Hfresh. by rewrite <- Heq. }
    destruct (delete_products (db w1) id).2 as [m1 t1 ws1 ps1 ls1].
    destruct (db w) as [m0 t0 ws0 ps0 ls0]. simpl in *. congruence.
Qed.

(** *** Completeness of the aggregated reads *)

Lemma NoDup_fmap_inj_on {A B} (f : A → B) (l : list A) (x y : A) :
  NoDup (f <$> l) → x ∈ l → y ∈ l → f x = f y → x = y.
Proof.
  induction l as [|z l IH]; [by intros _ ?%elem_of_nil|].
  rewrite fmap_cons, NoDup_cons. intros [Hz Hnd] Hx Hy Hxy.
  apply elem_of_cons in Hx as [->|Hx]; apply elem_of_cons in Hy as [->|Hy].
  - done.
  - destruct Hz. rewrite Hxy. by apply list_elem_of_fmap_2.
  - destruct Hz. rewrite <- Hxy. by apply list_elem_of_fmap_2.
  - by apply IH.
Qed.

Lemma filter_ext_in {A} (P Q : A → Prop) `{!∀ x, Decision (P x)}
    `{!∀ x, Decision (Q x)} (l : list A) :
  (∀ x, x ∈ l → P x ↔ Q x) → filter P l = filter Q l.
Proof.
  induction l as [|x l IH]; [done|]. intros Hext.
  rewrite !filter_cons.
  assert (filter P l = filter Q l) as -> by (apply IH; intros y Hy; apply Hext; by right).
  destruct (decide (P x)) as [HP|HP], (decide (Q x)) as [HQ|HQ]; try done.
  - destruct HQ. by apply (Hext x); [left|].
  - destruct HP. by apply (Hext x); [left|].
Qed.

Lemma remove_dups_const {A} `{!EqDecision A} (l : list A) (k : A) :
  l ≠ [] → (∀ x, x ∈ l → x = k) → remove_dups l = [k].
Proof.
  induction l as [|x l IH]; [done|]. intros _ Hall.
  assert (x = k) as -> by (apply Hall; left).
  simpl. destruct (decide_rel elem_of k l) as [Hin|Hin].
  - apply IH; [by intros ->; apply elem_of_nil in Hin|].
    intros y Hy. apply Hall. by right.
  - destruct l as [|y l]; [done|]. destruct Hin.
    assert (y = k) as -> by (apply Hall; right; left). left.
Qed.

Lemma from_joins_row (T : Tables) (j : joined_row) :
  j ∈ from_joins T →
  j_p j ∈ products T
  ∧ j_m j ∈ materials T ∧ material_id (j_p j) = m_id (j_m j)
  ∧ j_pt j ∈ products_types T ∧ type_id (j_p j) = pt_id (j_pt j).
Proof.
  unfold from_joins. intros (p & Hj & Hp)%list_elem_of_bind.
  unfold joins_of_product in Hj.
  apply list_elem_of_bind in Hj as (m & Hj & [Hmid Hm]%list_elem_of_filter).
  apply list_elem_of_bind in Hj as (pt & Hj & [Htid Hpt]%list_elem_of_filter).
  apply left_join_pw_row in Hj as (-> & -> & ->). done.
Qed.

Lemma from_joins_intro (T : Tables) (p : products_row) (m : materials_row)
    (pt : products_types_row) (j : joined_row) :
  p ∈ products T →
  m ∈ materials T → material_id p = m_id m →
  pt ∈ products_types T → type_id p = pt_id pt →
  j ∈ left_join_pw T p m pt → j ∈ from_joins T.
Proof.
  intros Hp Hm Hmid Hpt Htid Hj. unfold from_joins.
  apply list_elem_of_bind. exists p. split; [|done].
  unfold joins_of_product. apply list_elem_of_bind. exists m.
  split; [|by apply list_elem_of_filter].
  apply list_elem_of_bind. exists pt. split; [done|by apply list_elem_of_filter].
Qed.

(** Under the primary keys, two joined rows of one product agree on the
    grouping key. *)
Lemma key_of_same_product (T : Tables) (j j' : joined_row) :
  keys_unique T → j ∈ from_joins T → j' ∈ from_joins T →
  p_id (j_p j) = p_id (j_p j') → key_of j = key_of j'.
Proof.
  intros (Hps & Hms & Hpts) Hj Hj' Hid.
  apply from_joins_row in Hj as (Hp & Hm & Hmid & Hpt & Htid).
  apply from_joins_row in Hj' as (Hp' & Hm' & Hmid' & Hpt' & Htid').
  assert (j_p j = j_p j') as Ep by (by eapply (NoDup_fmap_inj_on p_id)).
  assert (j_m j = j_m j') as Em
    by (eapply (NoDup_fmap_inj_on m_id); [done..|congruence]).
  assert (j_pt j = j_pt j') as Ept
    by (eapply (NoDup_fmap_inj_on pt_id); [done..|congruence]).
  unfold key_of. by rewrite Ep, Em, Ept.
Qed.

Lemma rows_of_product (T : Tables) (p : products_row) (m : materials_row)
    (pt : products_types_row) :
  keys_unique T →
  p ∈ products T →
  m ∈ materials T → material_id p = m_id m →
  pt ∈ products_types T → type_id p = pt_id pt →
  filter (λ j, p_id (j_p j) = p_id p) (from_joins T) = left_join_pw T p m pt.
Proof.
  intros Hkeys Hp Hm Hmid Hpt Htid.
  destruct (left_join_pw T p m pt) as [|j0 rest] eqn:Hrows;
    [by destruct (left_join_pw_nonempty T p m pt)|].
  assert (j0 ∈ left_join_pw T p m pt) as Hj0 by (rewrite Hrows; left).
  pose proof (left_join_pw_row _ _ _ _ _ Hj0) as (E1 & E2 & E3).
  pose proof (from_joins_intro _ _ _ _ _ Hp Hm Hmid Hpt Htid Hj0) as Hin.
  rewrite <- Hrows.
  rewrite (filter_ext_in _ (λ j, key_of j = key_of j0)).
  - rewrite (group_rows T j0 Hkeys Hin). by rewrite E1, E2, E3.
  - intros j Hj. split.
    + intros Hid. apply (key_of_same_product T); [done..|]. by rewrite E1.
    + unfold key_of. rewrite <- E1. congruence.
Qed.

(** The one row the query of [GetProductByID] returns for a stored product. *)
Lemma query_product_by_id_row (T : Tables) (p : products_row) (m : materials_row)
    (pt : products_types_row) :
  keys_unique T →
  p ∈ products T →
  m ∈ materials T → material_id p = m_id m →
  pt ∈ products_types T → type_id p = pt_id pt →
  query_product_by_id T (p_id p) =
    [ {| s_id := p_id p; s_product_name := product_name p;
         s_material_name := material_name m; s_type_name := type_name pt;
         s_min_price := min_price p; s_article := article p;
         s_total_production_time := total_time (links_of T (p_id p)) |} ].
Proof.
  intros Hkeys Hp Hm Hmid Hpt Htid. unfold query_product_by_id.
  rewrite (rows_of_product T p m pt) by done.
  unfold group_by_and_select.
  assert (∀ j, j ∈ left_join_pw T p m pt →
            key_of j = (p_id p, product_name p, material_name m, type_name pt,
                        min_price p, article p)) as Hkey.
  { intros j (E1 & E2 & E3)%left_join_pw_row. unfold key_of. by rewrite E1, E2, E3. }
  rewrite (remove_dups_const _ (p_id p, product_name p, material_name m, type_name pt,
                                min_price p, article p)).
  - simpl. f_equal. f_equal.
    rewrite filter_all by done. apply left_join_pw_total.
  - intros Hnil%fmap_nil_inv. by destruct (left_join_pw_nonempty T p m pt).
  - intros k (j & -> & Hj)%list_elem_of_fmap. by apply Hkey.
Qed.

(** [GetProductByID] finds every stored product: with the primary keys in
    force, for a product whose material and type exist and whose price and
    article are not NULL, when the statement runs the result is that product
    with the names of its material and type, its price and article, and the
    sum of the times of its links. *)
Theorem GetProductByID_returns_stored_product (w : World) (p : products_row)
    (m : materials_row) (pt : products_types_row) (price : numeric) (art : string) :
  next_fails w = false →
  keys_unique (db w) →
  p ∈ products (db w) →
  m ∈ materials (db w) → material_id p = m_id m →
  pt ∈ products_types (db w) → type_id p = pt_id pt →
  min_price p = Some price → article p = Some art →
  (GetProductByID (p_id p) w).1 =
    Ok (Some {| ID := p_id p; ProductName := product_name p;
                MaterialName := material_name m; TypeName := type_name pt;
                MinPrice := float64_of_numeric price; Article := art;
                TotalProductionTime :=
                  float64_of_numeric (total_time (links_of (db w) (p_id p))) |}).
Proof.
  intros Hrun Hkeys Hp Hm Hmid Hpt Htid Hprice Hart.
  rewrite GetProductByID_unfold, Hrun. simpl.
  rewrite (query_product_by_id_row _ p m pt) by done.
  unfold Scan_product. simpl. by rewrite Hprice, Hart.
Qed.

Lemma db_consistent_keys (T : Tables) : db_consistent T → keys_unique T.
Proof. intros (Hm & Hpt & _ & Hp & _). by repeat split. Qed.

Lemma s_id_select_group (rows : list joined_row) (j : joined_row) :
  s_id (select_group rows (key_of j)) = p_id (j_p j).
Proof. reflexivity. Qed.

(** The row of the grouped join for a stored product. *)
Lemma group_row_of_product (T : Tables) (p : products_row) (m : materials_row)
    (pt : products_types_row) :
  keys_unique T →
  p ∈ products T →
  m ∈ materials T → material_id p = m_id m →
  pt ∈ products_types T → type_id p = pt_id pt →
  {| s_id := p_id p; s_product_name := product_name p;
     s_material_name := material_name m; s_type_name := type_name pt;
     s_min_price := min_price p; s_article := article p;
     s_total_production_time := total_time (links_of T (p_id p)) |}
  ∈ group_by_and_select (from_joins T).
Proof.
  intros Hkeys Hp Hm Hmid Hpt Htid.
  destruct (left_join_pw T p m pt) as [|j0 rest] eqn:Hrows;
    [by destruct (left_join_pw_nonempty T p m pt)|].
  assert (j0 ∈ left_join_pw T p m pt) as Hj0 by (rewrite Hrows; left).
  pose proof (left_join_pw_row _ _ _ _ _ Hj0) as (E1 & E2 & E3).
  pose proof (from_joins_intro _ _ _ _ _ Hp Hm Hmid Hpt Htid Hj0) as Hin.
  unfold group_by_and_select. apply list_elem_of_fmap.
  exists (key_of j0). split.
  - unfold select_group, key_of at 1. rewrite (group_rows T j0 Hkeys Hin).
    rewrite left_join_pw_total. by rewrite E1, E2, E3.
  - apply elem_of_remove_dups. by apply list_elem_of_fmap_2.
Qed.

Lemma all_rows_ids (T : Tables) :
  db_consistent T →
  s_id <$> group_by_and_select (from_joins T) ≡ₚ p_id <$> products T.
Proof.
  intros Hc. pose proof (db_consistent_keys _ Hc) as Hkeys.
  destruct Hc as (_ & _ & _ & Hps & _ & _ & Hfp & _).
  apply NoDup_Permutation; [|done|].
  - unfold group_by_and_select. rewrite <- list_fmap_compose.
    apply NoDup_fmap_2_strong; [|apply NoDup_remove_dups].
    intros k1 k2 Hk1 Hk2.
    apply elem_of_remove_dups, list_elem_of_fmap in Hk1 as (j1 & -> & Hj1).
    apply elem_of_remove_dups, list_elem_of_fmap in Hk2 as (j2 & -> & Hj2).
    unfold compose. rewrite !s_id_select_group. by apply (key_of_same_product T).
  - intros x. split.
    + intros (r & -> & Hr)%list_elem_of_fmap.
      unfold group_by_and_select in Hr.
      apply list_elem_of_fmap in Hr as (k & -> & Hk).
      apply elem_of_remove_dups, list_elem_of_fmap in Hk as (j & -> & Hj).
      rewrite s_id_select_group. apply list_elem_of_fmap_2.
      by apply from_joins_row in Hj as [? _].
    + intros (p & -> & Hp)%list_elem_of_fmap.
      destruct (Hfp p Hp) as [(m & Hmid & Hm)%list_elem_of_fmap
                              (pt & Htid & Hpt)%list_elem_of_fmap].
      pose proof (group_row_of_product T p m pt Hkeys Hp Hm Hmid Hpt Htid) as Hrow.
      by apply (list_elem_of_fmap_2 s_id) in Hrow.
Qed.

#[local] Instance by_id_transitive : Transitive by_id.
Proof. intros a b c. unfold by_id. lia. Qed.

#[local] Instance by_id_total : Total by_id.
Proof. intros a b. unfold by_id. lia. Qed.

Lemma query_all_products_sorted (T : Tables) :
  StronglySorted Z.le (s_id <$> query_all_products T).
Proof.
  unfold query_all_products.
  pose proof (StronglySorted_merge_sort by_id (group_by_and_select (from_joins T))) as Hs.
  induction Hs as [|r rows Hs IH Hall]; [constructor|].
  rewrite fmap_cons. constructor; [done|].
  apply Forall_fmap. by eapply Forall_impl.
Qed.

Lemma scan_products_ids (rows : list select_row) :
  ∀ (acc ps : list ProductWithTime),
    scan_products rows acc = Ok ps →
    ID <$> ps = (ID <$> acc) ++ (s_id <$> rows).
Proof.
  induction rows as [|r rows IH]; intros acc ps; simpl.
  - intros [= <-]. by rewrite app_nil_r.
  - destruct (Scan_product r) as [q|e] eqn:Hr; [|done].
    intros Hrest. rewrite (IH _ _ Hrest), fmap_app, <- app_assoc. simpl.
    by apply Scan_product_ok in Hr as [-> _].
Qed.

(** The list has one entry for each stored product, in ascending order
    of the identifier: on a state that satisfies the integrity of the schema,
    a successful [GetAllProducts] returns the identifiers of the products
    table, each once, sorted, and [GetProductsHandler] answers 200 with that
    list and with the number of stored products as the count. *)
Theorem GetAllProducts_lists_every_product_in_order (w w' : World)
    (ps : list ProductWithTime) :
  db_consistent (db w) →
  GetAllProducts w = (Ok ps, w') →
  ID <$> ps ≡ₚ p_id <$> products (db w)
  ∧ StronglySorted Z.le (ID <$> ps)
  ∧ (∀ c, GetProductsHandler c w =
       ([ {| status := 200;
             body := JProducts ps (Z.of_nat (length (products (db w)))) |} ], w')).
Proof.
  intros Hc Hget. pose proof Hget as Hunf.
  rewrite GetAllProducts_unfold in Hunf.
  destruct (next_fails w); [done|]. injection Hunf as Hscan _.
  apply scan_products_ids in Hscan. simpl in Hscan.
  assert (ID <$> ps ≡ₚ p_id <$> products (db w)) as Hperm.
  { rewrite Hscan. unfold query_all_products.
    rewrite merge_sort_Permutation. by apply all_rows_ids. }
  split; [done|]. split.
  - rewrite Hscan. apply query_all_products_sorted.
  - intros c. unfold GetProductsHandler, mbind, M_bind. rewrite Hget.
    apply Permutation_length in Hperm. rewrite !length_fmap in Hperm.
    by rewrite Hperm.
Qed.

(** *** NULL columns *)

Lemma scan_products_error (rows : list select_row) :
  ∀ (acc : list ProductWithTime) (e : error),
    scan_products rows acc = Err e → e = ErrPg ScanNull.
Proof.
  induction rows as [|r rows IH]; intros acc e; simpl; [done|].
  destruct (Scan_product r) as [q|e'] eqn:Hr; [by apply IH|].
  intros [= <-]. revert Hr. unfold Scan_product.
  by destruct (s_min_price r), (s_article r); intros [=].
Qed.

Lemma scan_products_fails (rows : list select_row) (r : select_row) (e : error) :
  r ∈ rows → Scan_product r = Err e →
  ∀ acc, scan_products rows acc = Err (ErrPg ScanNull).
Proof.
  intros Hr Hs. induction rows as [|r' rows IH]; [by apply elem_of_nil in Hr|].
  intros acc. simpl.
  destruct (Scan_product r') as [q|e'] eqn:Hr'.
  - apply elem_of_cons in Hr as [->|Hr]; [congruence|by apply IH].
  - f_equal. by apply (scan_products_error [r'] acc); simpl; rewrite Hr'.
Qed.

(** A NULL price or article breaks both reads: for a stored product whose
    [min_price] or [article] is NULL, when the statements run,
    [GetProductByID] of that product returns the scan error, and
    [GetAllProducts] returns it for the whole list, so that
    [GetProductsHandler] answers 500 although every other product is sound. *)
Theorem null_price_or_article_fails_the_reads (w : World) (p : products_row)
    (m : materials_row) (pt : products_types_row) :
  next_fails w = false →
  keys_unique (db w) →
  p ∈ products (db w) →
  m ∈ materials (db w) → material_id p = m_id m →
  pt ∈ products_types (db w) → type_id p = pt_id pt →
  min_price p = None ∨ article p = None →
  (GetProductByID (p_id p) w).1 = Err (ErrPg ScanNull)
  ∧ (GetAllProducts w).1 = Err (ErrPg ScanNull)
  ∧ (∀ c, (GetProductsHandler c w).1 =
       [ {| status := 500; body := JError MsgProductsUnavailable |} ]).
Proof.
  intros Hrun Hkeys Hp Hm Hmid Hpt Htid Hnull.
  assert (GetAllProducts w = (Err (ErrPg ScanNull), (round_trip w).2)) as Hall.
  { rewrite GetAllProducts_unfold, Hrun. f_equal.
    pose proof (group_row_of_product _ p m pt Hkeys Hp Hm Hmid Hpt Htid) as Hrow.
    eapply (scan_products_fails _ _ (ErrPg ScanNull)).
    - unfold query_all_products. rewrite merge_sort_Permutation. exact Hrow.
    - unfold Scan_product. simpl. by destruct Hnull as [-> | ->]; [|destruct (min_price p)]. }
  split; [|split].
  - rewrite GetProductByID_unfold, Hrun. simpl.
    rewrite (query_product_by_id_row _ p m pt) by done.
    unfold Scan_product. simpl.
    by destruct Hnull as [-> | ->]; [|destruct (min_price p)].
  - by rewrite Hall.
  - intros c. unfold GetProductsHandler, mbind, M_bind. by rewrite Hall.
Qed.

End Repository.

(** ** Further properties of the HTTP layer *)

Section Handlers.
Context `{Platform}.

(** [Server.DeleteById] of [main.go] answers every request once: 400 for an
    id that does not parse, without a round trip to the engine; 200 with the
    message when the statement runs and a product has the id; and 502 in every
    other case, also for an id that no product has, with the tables
    unchanged. *)
Theorem Server_DeleteById_answers_once (c : gin_request) (w : World) :
  length (Server_DeleteById c w).1 = 1%nat
  ∧ (Sscanf_d (Param c "id") = None →
       Server_DeleteById c w = ([ {| status := 400; body := JError MsgBadId |} ], w))
  ∧ (∀ id, Sscanf_d (Param c "id") = Some id →
       (next_fails w = false ∧ (∃ p, p ∈ products (db w) ∧ p_id p = id) →
          (Server_DeleteById c w).1 = [ {| status := 200; body := JMessage MsgDeleted |} ])
       ∧ (¬ (next_fails w = false ∧ ∃ p, p ∈ products (db w) ∧ p_id p = id) →
            (Server_DeleteById c w).1 =
              [ {| status := 502; body := JError MsgDeleteFailed |} ]
            ∧ db (Server_DeleteById c w).2 = db w)).
Proof.
  split; [apply Server_DeleteById_one_response|].
  split; [apply Server_DeleteById_bad_id|].
  intros id Hid. rewrite (Server_DeleteById_parsed _ _ _ Hid).
  destruct (DeleteById_cases id w)
    as [[Hf ->]|[(Hf & Hmiss & ->)|(Hf & Hhit & -> & _)]]; simpl.
  - split; [intros [? _]; congruence|]. intros _. split; [done|apply round_trip_db].
  - split.
    + intros [_ (p & Hp & Hp')]. by destruct (Hmiss p).
    + intros _. split; [done|apply round_trip_db].
  - split; [done|]. intros Hno. by destruct Hno.
Qed.

(** *** The creating handlers *)

Lemma links_of_fresh (T : Tables) (id : Z) :
  db_consistent T → id ∉ p_id <$> products T → links_of T id = [].
Proof.
  intros (_ & _ & _ & _ & _ & _ & _ & Hfl) Hfresh. unfold links_of.
  apply filter_none. intros l Hl Heq. apply Hfresh. rewrite <- Heq. by apply Hfl.
Qed.

Lemma total_time_created (productID : Z) (ws : list WorkshopInput)
    (links : list products_workshop_row) :
  Forall2 (link_created productID) ws links →
  total_time links = times_total ws
  ∧ filter (λ l, product_id l = productID) links = links.
Proof.
  unfold total_time, times_total.
  induction 1 as [|x l ws links (Hpid & _ & Htime) _ [IH1 IH2]]; [done|].
  rewrite filter_cons_True by done. rewrite IH2. split; [|done].
  cbn [omap list_omap]. rewrite Htime.
  destruct (numeric_of_float64 (ProductionTime x)); simpl; by rewrite IH1.
Qed.

Lemma CreateProductWithWorkshops_ok_consistent
    (input : CreateProductWithWorkshopsInput) (w w' : World) (id : Z) :
  db_consistent (db w) → open_tx w = None →
  CreateProductWithWorkshops input w = (Ok id, w') →
  db_consistent (db w').
Proof.
  intros Hc Hidle Hcp.
  apply CreateProductWithWorkshops_ok_inv in Hcp
    as (price & T1 & wa & wb & _ & Hins & Htxa & Hadd & Htxb); [|done].
  destruct (add_workshops_checked _ _ _ _ _ Hadd Htxa) as (work' & Htx' & Hcons & _).
  assert (work' = db w') as <- by congruence.
  apply Hcons. by eapply insert_products_consistent.
Qed.

(** POST /api/products: a body that does not bind is answered with 400
    without a round trip; a failed insert with 500 and unchanged tables; and
    when the insert succeeds and the read-back runs, on a state that satisfies
    the integrity of the schema, the answer is 201 with the stored product:
    the new identifier, the names of the referenced material and type, the
    price as stored, and a total production time of zero. *)
Theorem CreateProductHandler_answers (c : gin_request) (w : World) :
  (json_product c = None →
     CreateProductHandler c w = ([ {| status := 400; body := JError MsgBadData |} ], w))
  ∧ (∀ input, json_product c = Some input →
       (∀ e w1, CreateProduct input w = (Err e, w1) →
          CreateProductHandler c w =
            ([ {| status := 500; body := JError MsgNotCreated |} ], w1)
          ∧ db w1 = db w)
       ∧ (∀ id w1, CreateProduct input w = (Ok id, w1) →
            next_fails w1 = false → db_consistent (db w) →
            ∃ m pt price,
              m ∈ materials (db w) ∧ m_id m = cp_MaterialID input
              ∧ pt ∈ products_types (db w) ∧ pt_id pt = cp_TypeID input
              ∧ numeric_of_float64 (cp_MinPrice input) = Some price
              ∧ (CreateProductHandler c w).1 =
                  [ {| status := 201;
                       body := JProduct (Some
                         {| ID := id; ProductName := cp_ProductName input;
                            MaterialName := material_name m;
                            TypeName := type_name pt;
                            MinPrice := float64_of_numeric price;
                            Article := cp_Article input;
                            TotalProductionTime := float64_of_numeric (Num 0) |}) |} ])).
Proof.
  split.
  { intros Hbody. unfold CreateProductHandler. by rewrite Hbody. }
  intros input Hbody. split.
  - intros e w1 Hcp. split.
    + unfold CreateProductHandler. rewrite Hbody. unfold mbind, M_bind. by rewrite Hcp.
    + apply CreateProduct_inv in Hcp as [_ Herr]. by apply (Herr e).
  - intros id w1 Hcp Hrun Hc.
    pose proof Hcp as Hinv. apply CreateProduct_inv in Hinv as [Hok _].
    destruct (Hok id eq_refl) as (price & Hprice & Hins).
    pose proof (insert_products_consistent _ _ _ _ _ _ _ _ Hc Hins) as Hc1.
    apply insert_products_inv in Hins as ((Em & Ept & _) & Ep & Epw & Hfresh & Hmid & Htid).
    apply list_elem_of_fmap in Hmid as (m & Hmid & Hm).
    apply list_elem_of_fmap in Htid as (pt & Htid & Hpt).
    exists m, pt, price. repeat (split; [done|]).
    unfold CreateProductHandler. rewrite Hbody. unfold mbind, M_bind. rewrite Hcp.
    rewrite GetProductByID_unfold, Hrun.
    set (p := {| p_id := id; product_name := cp_ProductName input;
                 material_id := cp_MaterialID input; type_id := cp_TypeID input;
                 min_price := Some price; article := Some (cp_Article input) |}) in *.
    assert (p ∈ products (db w1)) as Hp
      by (rewrite Ep, elem_of_app; right; by apply list_elem_of_singleton).
    change id with (p_id p).
    rewrite (query_product_by_id_row (db w1) p m pt);
      [|by apply db_consistent_keys|done|by rewrite Em|done|by rewrite Ept|done].
    assert (links_of (db w1) (p_id p) = []) as ->.
    { unfold links_of. rewrite Epw. by apply (links_of_fresh (db w) id). }
    done.
Qed.

(** POST /api/products/with-workshops: a failed creation is answered with
    500 and leaves the tables unchanged; when the creation succeeds and the
    read-back runs, on a state that satisfies the integrity of the schema, the
    answer is 201 with the stored product, whose total production time is the
    sum of the times of the request as the engine stored them. *)
Theorem CreateProductWithWorkshopsHandler_answers (c : gin_request) (w : World)
    (input : CreateProductWithWorkshopsInput) :
  json_product_with_workshops c = Some input →
  open_tx w = None →
  (∀ e w1, CreateProductWithWorkshops input w = (Err e, w1) →
     CreateProductWithWorkshopsHandler c w =
       ([ {| status := 500; body := JError (MsgNotCreatedBecause e) |} ], w1)
     ∧ db w1 = db w)
  ∧ (∀ id w1, CreateProductWithWorkshops input w = (Ok id, w1) →
       next_fails w1 = false → db_consistent (db w) →
       ∃ m pt price,
         m ∈ materials (db w) ∧ m_id m = cw_MaterialID input
         ∧ pt ∈ products_types (db w) ∧ pt_id pt = cw_TypeID input
         ∧ numeric_of_float64 (cw_MinPrice input) = Some price
         ∧ (CreateProductWithWorkshopsHandler c w).1 =
             [ {| status := 201;
                  body := JProduct (Some
                    {| ID := id; ProductName := cw_ProductName input;
                       MaterialName := material_name m;
                       TypeName := type_name pt;
                       MinPrice := float64_of_numeric price;
                       Article := cw_Article input;
                       TotalProductionTime :=
                         float64_of_numeric (times_total (Workshops input)) |}) |} ]).
Proof.
  intros Hbody Hidle. split.
  - intros e w1 Hcp. split.
    + unfold CreateProductWithWorkshopsHandler. rewrite Hbody.
      unfold mbind, M_bind. by rewrite Hcp.
    + apply CreateProductWithWorkshops_cases in Hcp as [_ Hcases]; [|done].
      by destruct Hcases as [(? & ? & ? & [=] & _)|(e' & _ & _ & ->)].
  - intros id w1 Hcp Hrun Hc.
    pose proof (CreateProductWithWorkshops_ok_consistent _ _ _ _ Hc Hidle Hcp) as Hc1.
    pose proof Hcp as Hinv.
    apply CreateProductWithWorkshops_ok_inv in Hinv
      as (price & T1 & _ & _ & Hprice & Hins & _); [|done].
    apply insert_products_inv in Hins as (_ & _ & _ & Hfresh & Hmid & Htid).
    pose proof Hcp as Hcases.
    apply CreateProductWithWorkshops_cases in Hcases as [_ Hcases]; [|done].
    destruct Hcases as [(id' & p & links & [= <-] & (Em & Ept & _) & Ep & Hpc & Epw & _ & Hall)
                       |(e & [=] & _)].
    destruct Hpc as (Hpid & Hname & Hpm & Hpt' & Hpprice & Hpart).
    apply list_elem_of_fmap in Hmid as (m & Hmid & Hm).
    apply list_elem_of_fmap in Htid as (pt & Htid & Hpt).
    exists m, pt, price. repeat (split; [done|]).
    unfold CreateProductWithWorkshopsHandler. rewrite Hbody.
    unfold mbind, M_bind. rewrite Hcp.
    rewrite GetProductByID_unfold, Hrun.
    assert (p ∈ products (db w1)) as Hp
      by (rewrite Ep, elem_of_app; right; by apply list_elem_of_singleton).
    rewrite <- Hpid.
    rewrite (query_product_by_id_row (db w1) p m pt);
      [|by apply db_consistent_keys|done|by rewrite Em|congruence|by rewrite Ept|congruence].
    destruct (total_time_created _ _ _ Hall) as [Htot Hfil].
    assert (links_of (db w1) (p_id p) = links) as ->.
    { unfold links_of. rewrite Epw, filter_app, Hpid, Hfil.
      fold (links_of (db w) id). by rewrite (links_of_fresh (db w) id Hc Hfresh). }
    simpl. unfold Scan_product. simpl. rewrite Hpprice, Hprice, Hpart, Htot.
    by rewrite Hname.
Qed.

End Handlers.

(** ** Further properties of the importer *)

Section Importer.
Context `{Platform}.

Lemma getMaterialID_ok (name : string) (w w' : World) (id : Z) :
  getMaterialID name w = (Ok id, w') →
  db w' = db w ∧ ∃ m, material_matches (db w) name m ∧ m_id m = id.
Proof.
  rewrite getMaterialID_unfold. destruct (next_fails w); [by intros [=]|].
  destruct (filter_head_cases (λ m, LOWER (material_name m) = LOWER name)
              (materials (db w))) as [[-> _]|(m & l' & -> & Hm & Heq)];
    intros [= <- <-]; split; [done|]. by exists m.
Qed.

Lemma getTypeID_ok (name : string) (w w' : World) (id : Z) :
  getTypeID name w = (Ok id, w') →
  db w' = db w ∧ ∃ pt, type_matches (db w) name pt ∧ pt_id pt = id.
Proof.
  rewrite getTypeID_unfold. destruct (next_fails w); [by intros [=]|].
  destruct (filter_head_cases (λ pt, LOWER (type_name pt) = LOWER name)
              (products_types (db w))) as [[-> _]|(pt & l' & -> & Hm & Heq)];
    intros [= <- <-]; split; [done|]. by exists pt.
Qed.

(** What one pass of the loop body does to the counters and the tables. *)
Lemma import_row_inv (i : Z) (row : list string) (st st' : import_state) (w w' : World) :
  import_row i row st w = (st', w') →
  (st' = count_success st
   ∧ (5 ≤ length row)%nat
   ∧ ∃ v m pt p,
       parseDecimal (cell row 3) = Ok v
       ∧ material_matches (db w) (TrimSpace (cell row 4)) m
       ∧ type_matches (db w) (TrimSpace (cell row 0)) pt
       ∧ products (db w') = products (db w) ++ [p]
       ∧ product_name p = TrimSpace (cell row 1)
       ∧ material_id p = m_id m
       ∧ type_id p = pt_id pt
       ∧ min_price p = numeric_of_float64 v
       ∧ article p = Some (TrimSpace (cell row 2))
       ∧ products_workshop (db w') = products_workshop (db w)
       ∧ same_reference (db w) (db w')
       ∧ (db_consistent (db w) → db_consistent (db w')))
  ∨ (∃ f, st' = count_error st (wrap64 (i + 1)) f ∧ db w' = db w).
Proof.
  unfold import_row.
  destruct (decide _) as [Hshort|Hlong]; [intros [= <- <-]; right; by eexists|].
  destruct (parseDecimal (cell row 3)) as [v|e0] eqn:Hprice;
    [|intros [= <- <-]; right; by eexists].
  unfold mbind, M_bind.
  destruct (getMaterialID _ w) as [[mid|e1] w1] eqn:H1; simpl.
  2:{ apply getMaterialID_db in H1. intros [= <- <-]. right. by eexists. }
  apply getMaterialID_ok in H1 as (Hdb1 & m & Hm & Hmid).
  destruct (getTypeID _ w1) as [[tid|e2] w2] eqn:H2; simpl.
  2:{ apply getTypeID_db in H2. intros [= <- <-]. right. eexists. split; [done|congruence]. }
  apply getTypeID_ok in H2 as (Hdb2 & pt & Hpt & Htid).
  destruct (autocommit _ w2) as [[id|e3] w3] eqn:H3; simpl; intros [= <- <-].
  - left. split; [done|]. split; [lia|].
    apply autocommit_inv in H3 as (_ & Hok & _);
      [|intros; apply stmt_insert_product_frame].
    destruct (Hok id eq_refl) as [w0 Hs].
    apply stmt_insert_product_checked in Hs as (price & Hnum & Hins).
    rewrite Hdb2, Hdb1 in Hins.
    pose proof (insert_products_inv _ _ _ _ _ _ _ _ Hins) as (Href & Ep & Epw & _).
    exists v, m, pt. eexists. split; [done|]. split; [done|].
    split; [by rewrite <- Hdb1|]. split; [exact Ep|]. simpl.
    repeat (split; [done|]).
    intros Hc. by eapply insert_products_consistent.
  - right. eexists. split; [done|].
    apply autocommit_inv in H3 as (_ & _ & Herr);
      [|intros; apply stmt_insert_product_frame].
    rewrite (Herr e3 eq_refl). congruence.
Qed.

(** The mapping of the columns: a row of the workbook is either counted
    as an error, with the tables unchanged, or it is counted as a success and
    has added exactly one product, whose name is the trimmed second cell,
    whose article is the trimmed third cell, whose price is the parsed fourth
    cell, whose material matches the trimmed fifth cell and whose type matches
    the trimmed first cell up to letter case; links and reference tables are
    not touched and the integrity of the schema is kept. *)
Theorem import_row_stores_the_trimmed_cells (i : Z) (row : list string)
    (st : import_state) (w : World) :
  ((import_row i row st w).1 = count_success st
   ∧ (5 ≤ length row)%nat
   ∧ ∃ v m pt p,
       parseDecimal (cell row 3) = Ok v
       ∧ material_matches (db w) (TrimSpace (cell row 4)) m
       ∧ type_matches (db w) (TrimSpace (cell row 0)) pt
       ∧ products (db (import_row i row st w).2) = products (db w) ++ [p]
       ∧ product_name p = TrimSpace (cell row 1)
       ∧ material_id p = m_id m
       ∧ type_id p = pt_id pt
       ∧ min_price p = numeric_of_float64 v
       ∧ article p = Some (TrimSpace (cell row 2))
       ∧ products_workshop (db (import_row i row st w).2) = products_workshop (db w)
       ∧ same_reference (db w) (db (import_row i row st w).2)
       ∧ (db_consistent (db w) → db_consistent (db (import_row i row st w).2)))
  ∨ (∃ f, (import_row i row st w).1 = count_error st (wrap64 (i + 1)) f
       ∧ db (import_row i row st w).2 = db w).
Proof.
  destruct (import_row i row st w) as [st' w'] eqn:Hrow. simpl.
  by apply import_row_inv in Hrow.
Qed.

Lemma import_rows_store (rows : list (list string)) :
  ∀ (i : Z) (st : import_state) (w : World),
    i ≠ 0 → 0 ≤ i →
    0 ≤ successCount st →
    successCount st + Z.of_nat (length rows) < 2 ^ 63 →
    ∃ new,
      products (db (import_rows i rows st w).2) = products (db w) ++ new
      ∧ successCount (import_rows i rows st w).1 =
          successCount st + Z.of_nat (length new)
      ∧ products_workshop (db (import_rows i rows st w).2) = products_workshop (db w)
      ∧ same_reference (db w) (db (import_rows i rows st w).2)
      ∧ (db_consistent (db w) → db_consistent (db (import_rows i rows st w).2)).
Proof.
  induction rows as [|row rest IH]; intros i st w Hi Hi0 Hs Hbound.
  - exists []. simpl. rewrite app_nil_r. split; [done|]. split; [lia|].
    split; [done|]. split; [apply same_reference_refl|done].
  - simpl import_rows. rewrite decide_False by done. unfold mbind, M_bind.
    simpl length in Hbound. rewrite Nat2Z.inj_succ in Hbound.
    destruct (import_row i row st w) as [st1 w1] eqn:Hrow.
    apply import_row_inv in Hrow
      as [(-> & _ & v & m & pt & p & _ & _ & _ & Ep & _ & _ & _ & _ & _ & Epw & Href & Hcons)
         |(f & -> & Hdb)].
    + assert (wrap64 (successCount st + 1) = successCount st + 1) as Hw
        by (apply wrap64_small; lia).
      destruct (IH (i + 1) (count_success st) w1) as (new & Eps & Ecount & Epws & Hrefs & Hc);
        [lia|lia|simpl; lia|simpl; lia|].
      exists (p :: new). simpl in Ecount. rewrite Hw in Ecount.
      split; [by rewrite Eps, Ep, <- app_assoc|].
      split; [simpl length; rewrite Nat2Z.inj_succ; lia|].
      split; [congruence|]. split; [by eapply same_reference_trans|tauto].
    + destruct (IH (i + 1) (count_error st (wrap64 (i + 1)) f) w1)
        as (new & Eps & Ecount & Epws & Hrefs & Hc); [lia|lia|done|simpl; lia|].
      exists new. rewrite Hdb in *. done.
Qed.

(** The importer stores one product per counted success and nothing
    else: after the run the products table is the old one followed by as many
    new rows as the success counter says, the links and the reference tables
    are unchanged, and the integrity of the schema is kept. *)
Theorem import_stores_one_product_per_success (rows : list (list string)) (w : World) :
  Z.of_nat (length rows) < 2 ^ 63 →
  ∃ new,
    products (db (import_main rows w).2) = products (db w) ++ new
    ∧ Z.of_nat (length new) = successCount (import_main rows w).1
    ∧ products_workshop (db (import_main rows w).2) = products_workshop (db w)
    ∧ same_reference (db w) (db (import_main rows w).2)
    ∧ (db_consistent (db w) → db_consistent (db (import_main rows w).2)).
Proof.
  intros Hbound. unfold import_main.
  destruct rows as [|header rest].
  { exists []. simpl. rewrite app_nil_r. split; [done|]. split; [done|].
    split; [done|]. split; [apply same_reference_refl|done]. }
  simpl import_rows. simpl length in Hbound. rewrite Nat2Z.inj_succ in Hbound.
  destruct (import_rows_store rest (0 + 1)
              {| successCount := 0; errorCount := 0; logged := [] |} w)
    as (new & Eps & Ecount & Epws & Href & Hc); [lia|lia|simpl; lia|simpl; lia|].
  exists new. simpl in Ecount. split; [done|]. split; [lia|done].
Qed.

End Importer.
